(** * elite-modify.py: the scramble codec and the patch engine

    A shallow embedding of [src/elite-modify.py], the script that decrypts
    the Commodore 64 Elite game binary [gma6], patches it, encrypts it again
    and removes the disk protection from [gma1].

    The Python [bytearray] is a [list Z] whose elements are bytes; indexing,
    item assignment, slice assignment and [extend] are given the behaviour
    CPython has for them, exceptions included.  The progress messages printed
    by the script are not modelled. *)

From Stdlib Require Import ZArith Lia.
From stdpp Require Import base list strings gmap.

Local Open Scope Z_scope.

(** ** Exceptions *)

(** The exceptions the script can raise: an index outside the [bytearray],
    a value outside [range(256)] stored into a [bytearray], [open] on a
    file that does not exist, a repeat count that does not fit an
    index-sized integer, and a list too long to be allocated. *)
Inductive py_error : Type :=
  | IndexError
  | ValueError
  | FileNotFoundError
  | OverflowError
  | MemoryError.

Inductive result (A : Type) : Type :=
  | Ok (a : A)
  | Raise (e : py_error).

Arguments Ok {A} a.
Arguments Raise {A} e.

Definition bind {A B : Type} (c : result A) (k : A -> result B) : result B :=
  match c with
  | Ok a => k a
  | Raise e => Raise e
  end.

Notation "'do' x <- c ;; k" := (bind c (fun x => k))
  (at level 20, x name, c at level 99, k at level 200).

Definition is_ok {A : Type} (c : result A) : bool :=
  match c with
  | Ok _ => true
  | Raise _ => false
  end.

(** ** The bytearray *)

Module ByteArray.

(** [len(data)] *)
Definition len (data : list Z) : Z := Z.of_nat (length data).

Definition is_byte (v : Z) : bool := (0 <=? v) && (v <? 256).

(** What a [bytearray] holds: every element is in [range(256)]. *)
Definition bytes_ok (data : list Z) : Prop :=
  Forall (fun v => 0 <= v < 256) data.

(** The byte at a non-negative offset (0 past the end). *)
Definition byte_at (data : list Z) (off : Z) : Z :=
  default 0 (data !! Z.to_nat off).

(** An integer index: a negative one counts from the end. *)
Definition index_adjust (n i : Z) : Z :=
  if i <? 0 then i + n else i.

Definition index_ok (n j : Z) : bool := (0 <=? j) && (j <? n).

(** [data[i]] *)
Definition getitem (data : list Z) (i : Z) : result Z :=
  let j := index_adjust (len data) i in
  if index_ok (len data) j then Ok (byte_at data j) else Raise IndexError.

(** [data[i] = v].  The script only stores values in [range(256)], so
    which exception wins when both the index and the value are bad does not
    arise. *)
Definition setitem (data : list Z) (i v : Z) : result (list Z) :=
  let j := index_adjust (len data) i in
  if index_ok (len data) j then
    if is_byte v then Ok (<[Z.to_nat j := v]> data) else Raise ValueError
  else Raise IndexError.

(** A slice bound: negative bounds count from the end, and every bound is
    clamped to [0, len]. *)
Definition slice_adjust (n i : Z) : Z :=
  if i <? 0 then Z.max 0 (i + n) else Z.min i n.

(** [data[start:stop] = payload], for a payload of bytes.  A slice whose
    stop is below its start is empty and sits at its start. *)
Definition setslice (data : list Z) (start stop : Z) (payload : list Z)
  : list Z :=
  let lo := slice_adjust (len data) start in
  let hi := Z.max lo (slice_adjust (len data) stop) in
  take (Z.to_nat lo) data ++ payload ++ drop (Z.to_nat hi) data.

(** [bytearray(values)] for a list of integers. *)
Definition of_ints (values : list Z) : result (list Z) :=
  if forallb is_byte values then Ok values else Raise ValueError.

(** [data.extend(more)] *)
Definition extend (data more : list Z) : list Z := data ++ more.

End ByteArray.

Import ByteArray.

(** ** Ranges and loops *)

Fixpoint range_from (start step : Z) (k : nat) : list Z :=
  match k with
  | O => []
  | S k' => start :: range_from (start + step) step k'
  end.

(** [range(start, stop)] *)
Definition py_range (start stop : Z) : list Z :=
  range_from start 1 (Z.to_nat (stop - start)).

(** [range(start, stop, -1)] *)
Definition py_range_down (start stop : Z) : list Z :=
  range_from start (-1) (Z.to_nat (start - stop)).

(** [for n in ns: body], the body acting on the loop's state. *)
Fixpoint for_each {S : Type} (ns : list Z) (body : Z -> S -> result S) (s : S)
  : result S :=
  match ns with
  | [] => Ok s
  | n :: ns' => do s' <- body n s ;; for_each ns' body s'
  end.

(** ** The scramble codec *)

(** [get_offset], with the global [load_address] as a parameter. *)
Definition get_offset (load_address addr : Z) : Z := addr - load_address.

(** One iteration of the decrypt loop; the state is the image and
    [updated_seed]. *)
Definition decrypt_body (load_address n : Z) (st : list Z * Z)
  : result (list Z * Z) :=
  let '(data_block, updated_seed) := st in
  do x <- getitem data_block (n - load_address) ;;
  let new := (x - updated_seed) mod 256 in
  do data_block' <- setitem data_block (n - load_address) new ;;
  Ok (data_block', new).

Definition decrypt (load_address seed scramble_from scramble_to : Z)
    (data_block : list Z) : result (list Z) :=
  do st <- for_each (py_range_down scramble_to (scramble_from - 1))
             (decrypt_body load_address) (data_block, seed) ;;
  Ok (fst st).

(** One iteration of the encrypt loop. *)
Definition encrypt_body (load_address n : Z) (data_block : list Z)
  : result (list Z) :=
  do a <- getitem data_block (n - load_address) ;;
  do b <- getitem data_block (n + 1 - load_address) ;;
  setitem data_block (n - load_address) ((a + b) mod 256).

Definition encrypt (load_address seed scramble_from scramble_to : Z)
    (data_block : list Z) : result (list Z) :=
  do data_block1 <- for_each (py_range scramble_from scramble_to)
                      (encrypt_body load_address) data_block ;;
  do a <- getitem data_block1 (scramble_to - load_address) ;;
  setitem data_block1 (scramble_to - load_address) ((a + seed) mod 256).

(** ** The patch primitives *)

(** The files of the working directory, by name. *)
Abbreviation files := (gmap string (list Z)).

(** [open(filename, "rb")] followed by [read()]. *)
Definition read_file (fs : files) (filename : string) : result (list Z) :=
  match fs !! filename with
  | Some content => Ok content
  | None => Raise FileNotFoundError
  end.

(** [open(filename, "wb")] followed by [write(data)]. *)
Definition write_file (fs : files) (filename : string) (data : list Z)
  : files :=
  <[filename := data]> fs.

(** [os.path.getsize] of a file just opened is the length of its content. *)
Definition insert_binary_file (fs : files) (load_address : Z)
    (data_block : list Z) (addr : Z) (filename : string)
  : result (list Z) :=
  do content <- read_file fs filename ;;
  let file_size := len content in
  let insert_from := get_offset load_address addr in
  let insert_to := insert_from + file_size in
  Ok (setslice data_block insert_from insert_to content).

Definition insert_bytes (load_address : Z) (data_block : list Z) (addr : Z)
    (insert : list Z) : result (list Z) :=
  let insert_from := get_offset load_address addr in
  let insert_to := insert_from + len insert in
  do payload <- of_ints insert ;;
  Ok (setslice data_block insert_from insert_to payload).

(** The largest index-sized integer, [PY_SSIZE_T_MAX] of a 64-bit
    CPython. *)
Definition index_max : Z := 2 ^ 63 - 1.

(** The list [[v] * count].  The count is first converted to an index-sized
    integer, which raises [OverflowError] when it does not fit.  A count of
    zero or less gives the empty list.  A list holds one pointer of 8 bytes
    for each item, and a list of more than [index_max / 8] items is refused
    with [MemoryError] before anything is allocated.  Below that size the
    allocation is taken to succeed: the model puts no bound on memory. *)
Definition list_repeat (v count : Z) : result (list Z) :=
  if (count <? - index_max - 1) || (index_max <? count) then
    Raise OverflowError
  else if index_max / 8 <? count then Raise MemoryError
  else Ok (replicate (Z.to_nat count) v).

Definition insert_nops (load_address : Z) (data_block : list Z)
    (addr count : Z) : result (list Z) :=
  do insert <- list_repeat 0xEA count ;;
  insert_bytes load_address data_block addr insert.

(** The loop [for n in range(first, first + count): data_block[n] =
    data_block[n + shift]]. *)
Definition shift_body (shift n : Z) (data_block : list Z)
  : result (list Z) :=
  do v <- getitem data_block (n + shift) ;;
  setitem data_block n v.

Definition shift_block (shift first count : Z) (data_block : list Z)
  : result (list Z) :=
  for_each (py_range first (first + count)) (shift_body shift) data_block.

(** ** The script *)

Definition load_address : Z := 0x6A00 - 2.
Definition seed : Z := 0x49.
Definition scramble_from : Z := 0x6A00.
Definition scramble_to : Z := 0x6A00 + 0x62D6.

(** The platform is the first command line argument, [pal] without one. *)
Definition platform_of_argv (argv : list string) : string :=
  if (2 <=? length argv)%nat then default ""%string (argv !! 1%nat)
  else "pal"%string.

(** The shuffle of the LDA/STA block at LL79 down by 4 bytes. *)
Definition shift_lda_sta (data_block : list Z) : result (list Z) :=
  let lda_sta_block := get_offset load_address 0x9FDD in
  shift_block 4 lda_sta_block (4 * 5) data_block.

(** The flicker-free ship drawing patches. *)
Definition modify_flicker_free (fs : files) (data_block : list Z)
  : result (list Z) :=
  let lsput := 0xCCE0 in
  let patch1 := 0xCD1E in
  let patch2 := 0xCD35 in
  let ins := insert_bytes load_address in
  let nops := insert_nops load_address in
  let file := insert_binary_file fs load_address in
  do d <- file data_block 0x9932 "shppt.bin"%string ;;
  do d <- ins d 0x9A8A [0x20; patch1 mod 256; patch1 / 256] ;;
  do d <- nops d 0x9A8D 1 ;;
  do d <- ins d 0x9F2A [0xA0; 0x09; 0xB1; 0x57; 0x85; 0xAE] ;;
  do d <- nops d 0x9F30 3 ;;
  do d <- ins d 0x9F39 [0xA0; 0x00; 0x84; 0x9F] ;;
  do d <- nops d 0x9F3D 10 ;;
  do d <- ins d 0x9F87 [0x20; lsput mod 256; lsput / 256] ;;
  do d <- nops d 0x9F8A 21 ;;
  do d <- ins d 0x9FB4 [0x85; 0x30; 0xA0; 0x00] ;;
  do d <- nops d 0x9FC1 1 ;;
  do d <- ins d 0x9FD9 [0xC8; 0xB1; 0x5B; 0xAA] ;;
  do d <- shift_lda_sta d ;;
  do d <- ins d 0x9FF1 [0xC8; 0xB1; 0x5B; 0xAA] ;;
  do d <- nops d 0x9FF5 2 ;;
  do d <- ins d 0xA010 [0x4C; patch2 mod 256; patch2 / 256] ;;
  do d <- nops d 0xA13F 28 ;;
  do d <- file d 0xA15B "ll78.bin"%string ;;
  do d <- file d 0xA178 "ll155.bin"%string ;;
  do extra <- read_file fs "extra.bin"%string ;;
  Ok (extend d extra).

(** The Universe Editor patches. *)
Definition modify_editor (fs : files) (data_block : list Z)
  : result (list Z) :=
  let patch1 := 0xB72D in
  let patch2 := 0xB738 in
  let patch3 := 0xB745 in
  let ins := insert_bytes load_address in
  let nops := insert_nops load_address in
  let file := insert_binary_file fs load_address in
  do d <- ins data_block 0x920D [0x60] ;;
  do d <- ins d 0x8899 [0x20; patch1 mod 256; patch1 / 256] ;;
  do d <- ins d 0x8969 [0x20; patch2 mod 256; patch2 / 256] ;;
  do d <- nops d 0x896C 12 ;;
  do d <- ins d 0x8879 [0x20; patch3 mod 256; patch3 / 256] ;;
  file d 0xB72D "editor.bin"%string.

(** The protection patch of [gma1]: one overwrite set for [pal], the other
    for everything else. *)
Definition patch_gma1 (platform : string) (data_block : list Z)
  : result (list Z) :=
  if (platform =? "pal")%string then
    do d <- setitem data_block 0x25 0xEA ;;
    do d <- setitem d 0x26 0xEA ;;
    do d <- setitem d 0x27 0xEA ;;
    setitem d 0x2C 0xD0
  else
    do d <- setitem data_block 0x14 0xEA ;;
    do d <- setitem d 0x16 0xEA ;;
    setitem d 0x15 0xEA.

(** The whole run: the files of the working directory after it, or the
    exception that ended it. *)
Definition main (argv : list string) (fs : files) : result files :=
  let platform := platform_of_argv argv in
  do gma6 <- read_file fs "gma6"%string ;;
  let data_block := extend [] gma6 in
  do data_block <- decrypt load_address seed scramble_from scramble_to
                     data_block ;;
  let fs := write_file fs "gma6.decrypted"%string data_block in
  do data_block <- modify_flicker_free fs data_block ;;
  do data_block <- modify_editor fs data_block ;;
  let fs := write_file fs "gma6.modified"%string data_block in
  do data_block <- encrypt load_address seed scramble_from scramble_to
                     data_block ;;
  let fs := write_file fs "gma6.encrypted"%string data_block in
  do gma1 <- read_file fs "gma1"%string ;;
  let data_block := extend [] gma1 in
  do data_block <- patch_gma1 platform data_block ;;
  Ok (write_file fs "gma1.modified"%string data_block).

(** ** Reference semantics: snapshot first, write afterwards *)

(** Store each value at its offset, in the order of the list. *)
Definition write_all (ws : list (Z * Z)) (data : list Z) : list Z :=
  foldl (fun d w => <[Z.to_nat (fst w) := snd w]> d) data ws.

(** What the encrypt pass puts at address [n], read from a snapshot of the
    image taken before the pass. *)
Definition encrypt_write (load_address seed scramble_to : Z)
    (snapshot : list Z) (n : Z) : Z * Z :=
  let next := if n =? scramble_to then seed
              else byte_at snapshot (n + 1 - load_address) in
  (n - load_address, (byte_at snapshot (n - load_address) + next) mod 256).

(** The encrypt pass over a snapshot, visiting the addresses [ns]. *)
Definition encrypt_snapshot (load_address seed scramble_to : Z)
    (ns : list Z) (data_block : list Z) : list Z :=
  write_all (map (encrypt_write load_address seed scramble_to data_block) ns)
    data_block.

(** The block shift over a snapshot, visiting the offsets [ns]: every
    source byte is read before any byte is written. *)
Definition shift_snapshot (shift : Z) (ns : list Z) (data_block : list Z)
  : list Z :=
  write_all (map (fun n => (n, byte_at data_block (n + shift))) ns)
    data_block.

(** ** Predicates of the statements *)

(** A window [[from, to]] of addresses whose offsets all lie in the image. *)
Definition window_in_image (load from to : Z) (data : list Z) : Prop :=
  load <= from /\ from <= to /\ to - load < len data.

(** The existing bytes of [data] outside [[start, start + n)] keep their
    offsets in [d], and [d] is longer than [data] only when [start + n] is
    past the end of [data]. *)
Definition grows_at_tail_only (data : list Z) (start n : Z) (d : list Z)
  : Prop :=
  (len data < len d -> len data < start + n)
  /\ (forall i, 0 <= i < len data -> i < start \/ start + n <= i ->
        d !! Z.to_nat i = data !! Z.to_nat i).

(** An image of bytes of at least [n] bytes. *)
Definition image_ok (n : Z) (data : list Z) : Prop :=
  bytes_ok data /\ n <= len data.

(** The assembled routines the script inserts or appends. *)
Definition patch_files : list string :=
  ["shppt.bin"; "ll78.bin"; "ll155.bin"; "extra.bin"; "editor.bin"]%string.

(** The working directory holds what the script reads: [gma6] with the whole
    scramble window, the assembled routines, and [gma1] with the offsets of
    both overwrite sets. *)
Definition inputs_ready (fs : files) : Prop :=
  (exists gma6, fs !! "gma6"%string = Some gma6
                /\ image_ok (0x62D6 + 1 + 2) gma6)
  /\ (forall name, name ∈ patch_files ->
        exists content, fs !! name = Some content /\ bytes_ok content)
  /\ (exists gma1, fs !! "gma1"%string = Some gma1 /\ 0x2C < len gma1).

(** The offset an image must hold for the patch of a platform. *)
Definition top_offset (platform : string) : Z :=
  if (platform =? "pal")%string then 0x2C else 0x16.

(** The files the script writes. *)
Definition output_files : list string :=
  ["gma6.decrypted"; "gma6.modified"; "gma6.encrypted";
   "gma1.modified"]%string.

(** Every file of the working directory holds bytes. *)
Definition files_are_bytes (fs : files) : Prop :=
  forall name content, fs !! name = Some content -> bytes_ok content.

(** A working directory to run the script in: a [gma6] of the size of the
    scramble window and its two header bytes, a [gma1] of 45 bytes, and
    assembled routines of a few bytes. *)
Definition example_directory : files :=
  <["gma6"%string := replicate (Z.to_nat (0x62D6 + 1 + 2)) 0x20]>
    (<["gma1"%string := replicate 45 7]>
       (<["shppt.bin"%string := [0xA9; 0x00]]>
          (<["ll78.bin"%string := [0x60]]>
             (<["ll155.bin"%string := [0x60]]>
                (<["extra.bin"%string := [0x4C; 0xE0; 0xCC]]>
                   (<["editor.bin"%string := [0x60]]> ∅)))))).

(** The repeat counts for which [list_repeat] gives a list: they fit an
    index-sized integer and ask for at most [index_max / 8] items. *)
Definition repeat_count_ok (count : Z) : Prop :=
  - index_max - 1 <= count <= index_max / 8.

(** The 64K of addresses of the machine the image is for. *)
Definition address_space : Z := 0x10000.

(** The filler counts of the statements below: a count that fits an
    index-sized integer and asks for no more filler than the machine has
    addresses, a list that any interpreter can hold. *)
Definition filler_count_ok (count : Z) : Prop :=
  - index_max - 1 <= count <= address_space.

(** The files the script reads. *)
Definition input_files : list string :=
  ["gma6"; "shppt.bin"; "ll78.bin"; "ll155.bin"; "extra.bin"; "editor.bin";
   "gma1"]%string.

(** * Properties *)

(** ** The bytearray operations inside their bounds *)

Section ByteArrayFacts.

Implicit Types (data : list Z) (i j v : Z).

Lemma len_nonneg data : 0 <= len data.
Proof. unfold len. lia. Qed.

Lemma len_insert data (k : nat) v : len (<[k := v]> data) = len data.
Proof. unfold len. by rewrite length_insert. Qed.

Lemma len_app data more : len (data ++ more) = len data + len more.
Proof. unfold len. rewrite length_app. lia. Qed.

Lemma is_byte_true v : 0 <= v < 256 -> is_byte v = true.
Proof. unfold is_byte. intros. apply andb_true_iff. lia. Qed.

Lemma index_in_range data i :
  0 <= i < len data ->
  index_ok (len data) (index_adjust (len data) i) = true
  /\ index_adjust (len data) i = i.
Proof.
  intros Hi. unfold index_adjust.
  destruct (Z.ltb_spec i 0); [lia |].
  split; [| done]. unfold index_ok. apply andb_true_iff. lia.
Qed.

Lemma getitem_in data i :
  0 <= i < len data -> getitem data i = Ok (byte_at data i).
Proof.
  intros Hi. unfold getitem.
  destruct (index_in_range data i Hi) as [-> ->]. done.
Qed.

Lemma setitem_in data i v :
  0 <= i < len data -> 0 <= v < 256 ->
  setitem data i v = Ok (<[Z.to_nat i := v]> data).
Proof.
  intros Hi Hv. unfold setitem.
  destruct (index_in_range data i Hi) as [-> ->].
  by rewrite is_byte_true.
Qed.

Lemma byte_at_insert_eq data i v :
  0 <= i < len data -> byte_at (<[Z.to_nat i := v]> data) i = v.
Proof.
  intros Hi. unfold byte_at.
  rewrite list_lookup_insert_eq; [done |]. unfold len in Hi. lia.
Qed.

Lemma byte_at_insert_ne data i j v :
  0 <= i -> 0 <= j -> i <> j ->
  byte_at (<[Z.to_nat i := v]> data) j = byte_at data j.
Proof.
  intros Hi Hj Hne. unfold byte_at.
  rewrite list_lookup_insert_ne; [done |]. lia.
Qed.

Lemma bytes_ok_insert data (k : nat) v :
  bytes_ok data -> 0 <= v < 256 -> bytes_ok (<[k := v]> data).
Proof.
  unfold bytes_ok. intros Hd Hv.
  apply Forall_insert; [done | lia].
Qed.

Lemma bytes_ok_byte_at data i : bytes_ok data -> 0 <= byte_at data i < 256.
Proof.
  intros Hd. unfold byte_at.
  destruct (data !! Z.to_nat i) as [v |] eqn:Hv; simpl; [| lia].
  eapply (Forall_lookup_1 _ _ _ _ Hd Hv).
Qed.

(** Two images of one length that agree at every offset are equal. *)
Lemma image_ext (a b : list Z) :
  len a = len b ->
  (forall i, 0 <= i < len a -> byte_at a i = byte_at b i) ->
  a = b.
Proof.
  intros Hlen Hat. apply list_eq. intros k.
  destruct (decide (k < length a)%nat) as [Hk | Hk].
  - specialize (Hat (Z.of_nat k)). unfold byte_at, len in *.
    rewrite Nat2Z.id in Hat.
    destruct (lookup_lt_is_Some_2 a k Hk) as [x Hx].
    assert (Hkb : (k < length b)%nat) by lia.
    destruct (lookup_lt_is_Some_2 b k Hkb) as [y Hy].
    rewrite Hx, Hy in *. simpl in Hat. f_equal. apply Hat. lia.
  - unfold len in Hlen.
    rewrite !lookup_ge_None_2; [done | lia | lia].
Qed.

Lemma mod_sub_add c s : 0 <= c < 256 -> ((c - s) mod 256 + s) mod 256 = c.
Proof.
  intros Hc. rewrite Zplus_mod_idemp_l.
  replace (c - s + s) with c by lia. by apply Z.mod_small.
Qed.

Lemma mod_add_sub p s : 0 <= p < 256 -> ((p + s) mod 256 - s) mod 256 = p.
Proof.
  intros Hp. rewrite Zminus_mod_idemp_l.
  replace (p + s - s) with p by lia. by apply Z.mod_small.
Qed.

Lemma mod_256_byte x : 0 <= x mod 256 < 256.
Proof. apply Z.mod_pos_bound. lia. Qed.

End ByteArrayFacts.

(** ** Python ranges *)

Section Ranges.

Lemma range_from_length start step k : length (range_from start step k) = k.
Proof.
  revert start. induction k as [| k IH]; intros start; simpl; [done |].
  by rewrite IH.
Qed.

Lemma range_from_lookup start step k (i : nat) :
  (i < k)%nat -> range_from start step k !! i = Some (start + Z.of_nat i * step).
Proof.
  revert start i. induction k as [| k IH]; intros start i Hi; [lia |].
  destruct i as [| i]; simpl.
  - f_equal. lia.
  - rewrite IH by lia. f_equal. lia.
Qed.

(** [range(start, stop)] holds exactly the integers from [start] up to
    [stop - 1]. *)
Lemma py_range_elem start stop n :
  n ∈ py_range start stop <-> start <= n < stop.
Proof.
  unfold py_range. rewrite list_elem_of_lookup. split.
  - intros [i Hi].
    assert (Hlt : (i < Z.to_nat (stop - start))%nat).
    { apply lookup_lt_Some in Hi. by rewrite range_from_length in Hi. }
    rewrite range_from_lookup in Hi by done. inversion Hi. lia.
  - intros Hn. exists (Z.to_nat (n - start)).
    rewrite range_from_lookup by lia. f_equal. lia.
Qed.

(** [range(start, stop, -1)] holds exactly the integers from [start] down
    to [stop + 1]. *)
Lemma py_range_down_elem start stop n :
  n ∈ py_range_down start stop <-> stop < n <= start.
Proof.
  unfold py_range_down. rewrite list_elem_of_lookup. split.
  - intros [i Hi].
    assert (Hlt : (i < Z.to_nat (start - stop))%nat).
    { apply lookup_lt_Some in Hi. by rewrite range_from_length in Hi. }
    rewrite range_from_lookup in Hi by done. inversion Hi. lia.
  - intros Hn. exists (Z.to_nat (start - n)).
    rewrite range_from_lookup by lia. f_equal. lia.
Qed.

(** The order of the visits: each address is one above, or one below, the
    address before it. *)
Lemma py_range_consecutive start stop (i : nat) a b :
  py_range start stop !! i = Some a ->
  py_range start stop !! S i = Some b ->
  b = a + 1.
Proof.
  unfold py_range. intros Ha Hb.
  assert (Hlt : (S i < Z.to_nat (stop - start))%nat).
  { apply lookup_lt_Some in Hb. by rewrite range_from_length in Hb. }
  rewrite range_from_lookup in Ha, Hb by lia.
  inversion Ha. inversion Hb. lia.
Qed.

Lemma py_range_down_consecutive start stop (i : nat) a b :
  py_range_down start stop !! i = Some a ->
  py_range_down start stop !! S i = Some b ->
  b = a - 1.
Proof.
  unfold py_range_down. intros Ha Hb.
  assert (Hlt : (S i < Z.to_nat (start - stop))%nat).
  { apply lookup_lt_Some in Hb. by rewrite range_from_length in Hb. }
  rewrite range_from_lookup in Ha, Hb by lia.
  inversion Ha. inversion Hb. lia.
Qed.

Lemma py_range_head start stop :
  start < stop -> head (py_range start stop) = Some start.
Proof.
  intros H. unfold py_range.
  destruct (Z.to_nat (stop - start)) as [| k] eqn:Hk; [lia | done].
Qed.

Lemma py_range_down_head start stop :
  stop < start -> head (py_range_down start stop) = Some start.
Proof.
  intros H. unfold py_range_down.
  destruct (Z.to_nat (start - stop)) as [| k] eqn:Hk; [lia | done].
Qed.

Lemma range_from_NoDup_up start k : NoDup (range_from start 1 k).
Proof.
  apply NoDup_alt. intros i j x Hi Hj.
  assert (Hik : (i < k)%nat).
  { apply lookup_lt_Some in Hi. by rewrite range_from_length in Hi. }
  assert (Hjk : (j < k)%nat).
  { apply lookup_lt_Some in Hj. by rewrite range_from_length in Hj. }
  rewrite range_from_lookup in Hi, Hj by done.
  inversion Hi. inversion Hj. lia.
Qed.

End Ranges.

(** ** The decrypt and encrypt loops *)

Section Codec.

Variable load : Z.

(** The decrypt loop over [k] addresses from [t] downwards. *)
Lemma decrypt_loop : forall (k : nat) t s data,
  bytes_ok data ->
  load <= t - Z.of_nat k + 1 -> t - load < len data ->
  exists data' s',
    for_each (range_from t (-1) k) (decrypt_body load) (data, s)
      = Ok (data', s')
    /\ len data' = len data
    /\ bytes_ok data'
    /\ (forall i, 0 <= i -> i <= t - load - Z.of_nat k \/ t - load < i ->
          byte_at data' i = byte_at data i)
    /\ (forall n, t - Z.of_nat k < n <= t ->
          byte_at data' (n - load)
          = (byte_at data (n - load)
             - (if n =? t then s else byte_at data' (n + 1 - load)))
            mod 256).
Proof.
  induction k as [| k IH]; intros t s data Hok Hlo Hhi.
  - exists data, s. simpl. repeat split; try done. intros n Hn. lia.
  - simpl for_each. unfold decrypt_body at 1.
    assert (Hin : 0 <= t - load < len data) by lia.
    rewrite (getitem_in _ _ Hin). simpl bind.
    rewrite (setitem_in _ _ _ Hin (mod_256_byte _)). simpl bind.
    set (new := (byte_at data (t - load) - s) mod 256).
    set (data1 := <[Z.to_nat (t - load) := new]> data).
    destruct (IH (t + -1) new data1) as (data' & s' & Hrun & Hlen & Hok' & Hout & Hin').
    { apply bytes_ok_insert; [done | apply mod_256_byte]. }
    { lia. }
    { unfold data1. rewrite len_insert. lia. }
    exists data', s'. split; [exact Hrun |].
    split; [rewrite Hlen; apply len_insert |].
    split; [done |].
    assert (Htop : byte_at data' (t - load) = new).
    { rewrite Hout by lia. apply byte_at_insert_eq. lia. }
    split.
    + intros i Hi Hrange. rewrite Hout by lia.
      apply byte_at_insert_ne; lia.
    + intros n Hn. destruct (Z.eqb_spec n t) as [-> | Hne].
      * exact Htop.
      * rewrite Hin' by lia.
        unfold data1. rewrite byte_at_insert_ne by lia.
        destruct (Z.eqb_spec n (t + -1)) as [-> | Hne'].
        -- replace (t + -1 + 1 - load) with (t - load) by lia.
           by rewrite Htop.
        -- done.
Qed.

(** The encrypt loop over [k] addresses from [a] upwards. *)
Lemma encrypt_loop : forall (k : nat) a data,
  bytes_ok data ->
  load <= a -> a + Z.of_nat k - load < len data ->
  exists data',
    for_each (range_from a 1 k) (encrypt_body load) data = Ok data'
    /\ len data' = len data
    /\ bytes_ok data'
    /\ (forall i, 0 <= i -> i < a - load \/ a - load + Z.of_nat k <= i ->
          byte_at data' i = byte_at data i)
    /\ (forall n, a <= n < a + Z.of_nat k ->
          byte_at data' (n - load)
          = (byte_at data (n - load) + byte_at data (n + 1 - load))
            mod 256).
Proof.
  induction k as [| k IH]; intros a data Hok Hlo Hhi.
  - exists data. simpl. repeat split; try done. intros n Hn. lia.
  - simpl for_each. unfold encrypt_body at 1.
    assert (Hin : 0 <= a - load < len data) by lia.
    assert (Hin1 : 0 <= a + 1 - load < len data) by lia.
    rewrite (getitem_in _ _ Hin). simpl bind.
    rewrite (getitem_in _ _ Hin1). simpl bind.
    rewrite (setitem_in _ _ _ Hin (mod_256_byte _)). simpl bind.
    set (new := (byte_at data (a - load) + byte_at data (a + 1 - load))
                mod 256).
    set (data1 := <[Z.to_nat (a - load) := new]> data).
    destruct (IH (a + 1) data1) as (data' & Hrun & Hlen & Hok' & Hout & Hin').
    { apply bytes_ok_insert; [done | apply mod_256_byte]. }
    { lia. }
    { unfold data1. rewrite len_insert. lia. }
    exists data'. split; [exact Hrun |].
    split; [rewrite Hlen; apply len_insert |].
    split; [done |].
    split.
    + intros i Hi Hrange. rewrite Hout by lia.
      apply byte_at_insert_ne; lia.
    + intros n Hn. destruct (Z.eq_dec n a) as [-> | Hne].
      * rewrite Hout by lia. apply byte_at_insert_eq. lia.
      * rewrite Hin' by lia. unfold data1.
        rewrite !byte_at_insert_ne by lia. done.
Qed.

End Codec.

(** ** The two passes over a window inside the image *)

Section Passes.

Variables load seed0 from to : Z.

Lemma decrypt_pass data :
  bytes_ok data -> window_in_image load from to data ->
  exists data',
    decrypt load seed0 from to data = Ok data'
    /\ len data' = len data
    /\ bytes_ok data'
    /\ (forall i, 0 <= i -> i < from - load \/ to - load < i ->
          byte_at data' i = byte_at data i)
    /\ (forall n, from <= n <= to ->
          byte_at data' (n - load)
          = (byte_at data (n - load)
             - (if n =? to then seed0 else byte_at data' (n + 1 - load)))
            mod 256).
Proof.
  intros Hok (Hlo & Hft & Hhi). unfold decrypt, py_range_down.
  destruct (decrypt_loop load (Z.to_nat (to - (from - 1))) to seed0 data)
    as (data' & s' & Hrun & Hlen & Hok' & Hout & Hin); [done | lia | lia |].
  rewrite Hrun. simpl. exists data'.
  repeat split; try done.
  - intros i Hi Hrange. apply Hout; lia.
  - intros n Hn. apply Hin. lia.
Qed.

Lemma encrypt_pass data :
  bytes_ok data -> window_in_image load from to data ->
  exists data',
    encrypt load seed0 from to data = Ok data'
    /\ len data' = len data
    /\ bytes_ok data'
    /\ (forall i, 0 <= i -> i < from - load \/ to - load < i ->
          byte_at data' i = byte_at data i)
    /\ (forall n, from <= n <= to ->
          byte_at data' (n - load)
          = (byte_at data (n - load)
             + (if n =? to then seed0 else byte_at data (n + 1 - load)))
            mod 256).
Proof.
  intros Hok (Hlo & Hft & Hhi). unfold encrypt, py_range.
  destruct (encrypt_loop load (Z.to_nat (to - from)) from data)
    as (data1 & Hrun & Hlen & Hok1 & Hout & Hin); [done | lia | lia |].
  rewrite Hrun. simpl bind.
  assert (Hto : 0 <= to - load < len data1) by lia.
  rewrite (getitem_in _ _ Hto). simpl bind.
  rewrite (setitem_in _ _ _ Hto (mod_256_byte _)).
  eexists. split; [reflexivity |].
  split; [by rewrite len_insert |].
  split; [apply bytes_ok_insert; [done | apply mod_256_byte] |].
  split.
  - intros i Hi Hrange. rewrite byte_at_insert_ne by lia. apply Hout; lia.
  - intros n Hn. destruct (Z.eqb_spec n to) as [-> | Hne].
    + rewrite byte_at_insert_eq by lia. rewrite Hout by lia. done.
    + rewrite byte_at_insert_ne by lia. apply Hin. lia.
Qed.

(** Decrypt, then encrypt: the image is back. *)
Lemma decrypt_then_encrypt data :
  bytes_ok data -> window_in_image load from to data ->
  (do d <- decrypt load seed0 from to data ;; encrypt load seed0 from to d)
  = Ok data.
Proof.
  intros Hok Hwin.
  destruct (decrypt_pass data Hok Hwin)
    as (d & -> & Hlen & Hokd & Hout & Hin). simpl bind.
  assert (Hwin' : window_in_image load from to d).
  { unfold window_in_image in *. rewrite Hlen. done. }
  destruct (encrypt_pass d Hokd Hwin')
    as (e & -> & Hlen' & _ & Hout' & Hin').
  f_equal. apply image_ext; [lia |].
  intros i Hi. destruct Hwin as (Hlo & Hft & Hhi).
  destruct (decide (from - load <= i <= to - load)) as [Hw | Hw].
  - replace i with ((i + load) - load) by lia.
    rewrite Hin', Hin by lia.
    destruct (Z.eqb_spec (i + load) to) as [Heq | Hne];
      apply mod_sub_add, bytes_ok_byte_at, Hok.
  - rewrite Hout', Hout by lia. done.
Qed.

(** Encrypt, then decrypt: the image is back. *)
Lemma encrypt_then_decrypt data :
  bytes_ok data -> window_in_image load from to data ->
  (do e <- encrypt load seed0 from to data ;; decrypt load seed0 from to e)
  = Ok data.
Proof.
  intros Hok Hwin.
  destruct (encrypt_pass data Hok Hwin)
    as (e & -> & Hlen & Hoke & Hout & Hin). simpl bind.
  assert (Hwin' : window_in_image load from to e).
  { unfold window_in_image in *. rewrite Hlen. done. }
  destruct (decrypt_pass e Hoke Hwin')
    as (d & -> & Hlen' & _ & Hout' & Hin').
  f_equal. destruct Hwin as (Hlo & Hft & Hhi).
  (* from the top of the window downwards, each byte is the plain one *)
  assert (Hchain : forall (m : nat), Z.of_nat m <= to - from ->
            byte_at d (to - Z.of_nat m - load)
            = byte_at data (to - Z.of_nat m - load)).
  { induction m as [| m IH]; intros Hm.
    - replace (to - Z.of_nat 0) with to by lia.
      rewrite Hin', Hin by lia. rewrite Z.eqb_refl.
      apply mod_add_sub, bytes_ok_byte_at, Hok.
    - rewrite Hin', Hin by lia.
      destruct (Z.eqb_spec (to - Z.of_nat (S m)) to) as [Heq | _]; [lia |].
      replace (to - Z.of_nat (S m) + 1 - load)
        with (to - Z.of_nat m - load) by lia.
      rewrite IH by lia.
      apply mod_add_sub, bytes_ok_byte_at, Hok. }
  apply image_ext; [lia |].
  intros i Hi.
  destruct (decide (from - load <= i <= to - load)) as [Hw | Hw].
  - specialize (Hchain (Z.to_nat (to - load - i))).
    replace (to - Z.of_nat (Z.to_nat (to - load - i)) - load) with i
      in Hchain by lia.
    apply Hchain. lia.
  - rewrite Hout', Hout by lia. done.
Qed.

End Passes.

(** A window is not empty.  With [from] above [to] the decrypt loop has no
    address to visit, while the encrypt pass still adds the seed to the byte
    at [to]. *)
Remark passes_on_an_empty_window :
  decrypt 10 0x49 13 12 [1; 2; 3; 4; 5; 6; 7] = Ok [1; 2; 3; 4; 5; 6; 7]
  /\ encrypt 10 0x49 13 12 [1; 2; 3; 4; 5; 6; 7] = Ok [1; 2; 76; 4; 5; 6; 7].
Proof. split; reflexivity. Qed.

(** The window of the script fits any image of [0x62D6 + 1] bytes after the
    two header bytes, and any longer one. *)
Lemma script_window_in_image_ge data :
  0x62D6 + 1 + 2 <= len data ->
  window_in_image load_address scramble_from scramble_to data.
Proof.
  intros Hlen. unfold window_in_image, load_address, scramble_from,
    scramble_to. lia.
Qed.

Lemma script_window_in_image data :
  len data = 0x62D6 + 1 + 2 ->
  window_in_image load_address scramble_from scramble_to data.
Proof. intros Hlen. apply script_window_in_image_ge. lia. Qed.

(** ** Writing from a snapshot *)

Section Snapshot.

Lemma write_all_cons w ws data :
  write_all (w :: ws) data
  = write_all ws (<[Z.to_nat (fst w) := snd w]> data).
Proof. done. Qed.

(** Writes at distinct offsets inside the image: each offset holds its
    value, every other offset keeps its byte. *)
Lemma write_all_spec : forall (ws : list (Z * Z)) (data : list Z),
  NoDup (ws.*1) ->
  (forall w, w ∈ ws -> 0 <= w.1 < len data) ->
  len (write_all ws data) = len data
  /\ (forall w, w ∈ ws -> byte_at (write_all ws data) (w.1) = w.2)
  /\ (forall o, 0 <= o -> o ∉ ws.*1 ->
        byte_at (write_all ws data) o = byte_at data o).
Proof.
  induction ws as [| w ws IH]; intros data Hnd Hin.
  - repeat split; try done. intros w Hw. by apply elem_of_nil in Hw.
  - rewrite fmap_cons in Hnd. apply NoDup_cons in Hnd as [Hfresh Hnd].
    rewrite write_all_cons.
    assert (Hw : 0 <= w.1 < len data) by (apply Hin; left).
    destruct (IH (<[Z.to_nat (w.1) := w.2]> data) Hnd)
      as (Hlen & Hat & Hout).
    { intros w' Hw'. rewrite len_insert. apply Hin. by right. }
    split; [by rewrite Hlen, len_insert |].
    split.
    + intros w' Hw'. apply elem_of_cons in Hw' as [-> | Hw'].
      * rewrite Hout by (done || lia). by apply byte_at_insert_eq.
      * by apply Hat.
    + intros o Ho Hnot. rewrite fmap_cons in Hnot.
      apply not_elem_of_cons in Hnot as [Hne Hnot].
      rewrite Hout by done. apply byte_at_insert_ne; [lia | done | done].
Qed.

(** An image that holds each written value and is otherwise the old image
    is the result of the writes, in whatever order they are made. *)
Lemma write_all_ext (ws : list (Z * Z)) (data data' : list Z) :
  NoDup (ws.*1) ->
  (forall w, w ∈ ws -> 0 <= w.1 < len data) ->
  len data' = len data ->
  (forall w, w ∈ ws -> byte_at data' (w.1) = w.2) ->
  (forall o, 0 <= o -> o ∉ ws.*1 -> byte_at data' o = byte_at data o) ->
  write_all ws data = data'.
Proof.
  intros Hnd Hin Hlen Hat Hout.
  destruct (write_all_spec ws data Hnd Hin) as (Hlen' & Hat' & Hout').
  apply image_ext; [lia |]. intros i Hi.
  destruct (decide (i ∈ ws.*1)) as [Hi' | Hi'].
  - apply list_elem_of_fmap in Hi' as (w & -> & Hw).
    by rewrite Hat, Hat'.
  - rewrite Hout, Hout' by (done || lia). done.
Qed.

Lemma map_is_fmap {A B : Type} (g : A -> B) (l : list A) :
  map g l = g <$> l.
Proof. induction l as [| a l IH]; simpl; [done | by rewrite IH]. Qed.

(** The offsets written, when the write for [n] goes to [n - base]. *)
Lemma writes_offsets (g : Z -> Z * Z) (base : Z) (ns : list Z) :
  (forall n, (g n).1 = n - base) ->
  (map g ns).*1 = (fun n => n - base) <$> ns.
Proof.
  intros Hg. induction ns as [| n ns IH]; [done |].
  cbn [map]. by rewrite !fmap_cons, IH, Hg.
Qed.

Lemma elem_of_writes (g : Z -> Z * Z) (ns : list Z) (w : Z * Z) :
  w ∈ map g ns <-> exists n, w = g n /\ n ∈ ns.
Proof. rewrite map_is_fmap. apply list_elem_of_fmap. Qed.

Lemma elem_of_offsets (base : Z) (ns : list Z) (o : Z) :
  o ∈ (fun n => n - base) <$> ns <-> o + base ∈ ns.
Proof.
  rewrite list_elem_of_fmap. split.
  - intros (n & -> & Hn). by replace (n - base + base) with n by lia.
  - intros Hn. exists (o + base). split; [lia | done].
Qed.

Lemma NoDup_offsets (base : Z) (ns : list Z) :
  NoDup ns -> NoDup ((fun n => n - base) <$> ns).
Proof. apply NoDup_fmap_2. intros a b Hab. lia. Qed.

End Snapshot.

(** ** The block shift *)

Section Shift.

Variable shift : Z.
Hypothesis shift_nonneg : 0 <= shift.

(** The shift loop over [k] offsets from [first] upwards, the source lying
    [shift] bytes above the destination. *)
Lemma shift_loop : forall (k : nat) first data,
  bytes_ok data ->
  0 <= first -> first + Z.of_nat k + shift <= len data ->
  exists data',
    for_each (range_from first 1 k) (shift_body shift) data = Ok data'
    /\ len data' = len data
    /\ bytes_ok data'
    /\ (forall i, 0 <= i -> i < first \/ first + Z.of_nat k <= i ->
          byte_at data' i = byte_at data i)
    /\ (forall n, first <= n < first + Z.of_nat k ->
          byte_at data' n = byte_at data (n + shift)).
Proof.
  induction k as [| k IH]; intros first data Hok Hlo Hhi.
  - exists data. simpl. repeat split; try done. intros n Hn. lia.
  - simpl for_each. unfold shift_body at 1.
    assert (Hsrc : 0 <= first + shift < len data) by lia.
    assert (Hdst : 0 <= first < len data) by lia.
    rewrite (getitem_in _ _ Hsrc). simpl bind.
    rewrite (setitem_in _ _ _ Hdst (bytes_ok_byte_at _ _ Hok)).
    simpl bind.
    set (data1 := <[Z.to_nat first := byte_at data (first + shift)]> data).
    destruct (IH (first + 1) data1) as (data' & Hrun & Hlen & Hok' & Hout & Hin).
    { apply bytes_ok_insert; [done | by apply bytes_ok_byte_at]. }
    { lia. }
    { unfold data1. rewrite len_insert. lia. }
    exists data'. split; [exact Hrun |].
    split; [rewrite Hlen; apply len_insert |].
    split; [done |].
    split.
    + intros i Hi Hrange. rewrite Hout by lia.
      apply byte_at_insert_ne; lia.
    + intros n Hn. destruct (Z.eq_dec n first) as [-> | Hne].
      * rewrite Hout by lia. apply byte_at_insert_eq. lia.
      * rewrite Hin by lia. apply byte_at_insert_ne; lia.
Qed.

Lemma shift_block_spec first count data :
  bytes_ok data ->
  0 <= first -> 0 <= count -> first + count + shift <= len data ->
  exists data',
    shift_block shift first count data = Ok data'
    /\ len data' = len data
    /\ bytes_ok data'
    /\ (forall i, 0 <= i -> i < first \/ first + count <= i ->
          byte_at data' i = byte_at data i)
    /\ (forall n, first <= n < first + count ->
          byte_at data' n = byte_at data (n + shift)).
Proof.
  intros Hok Hlo Hcount Hhi. unfold shift_block, py_range.
  destruct (shift_loop (Z.to_nat (first + count - first)) first data)
    as (data' & Hrun & Hlen & Hok' & Hout & Hin); [done | lia | lia |].
  exists data'. repeat split; try done.
  - intros i Hi Hrange. apply Hout; lia.
  - intros n Hn. apply Hin. lia.
Qed.

(** The loop gives what reading the whole source first and writing
    afterwards gives, whatever the order of the writes. *)
Lemma shift_block_snapshot first count data data' ns :
  0 <= first -> first + count <= len data ->
  len data' = len data ->
  (forall i, 0 <= i -> i < first \/ first + count <= i ->
     byte_at data' i = byte_at data i) ->
  (forall n, first <= n < first + count ->
     byte_at data' n = byte_at data (n + shift)) ->
  ns ≡ₚ py_range first (first + count) ->
  shift_snapshot shift ns data = data'.
Proof.
  intros Hlo Hhi Hlen Hout Hin Hperm. unfold shift_snapshot.
  assert (Hns : forall n, n ∈ ns <-> first <= n < first + count).
  { intros n. rewrite Hperm. apply py_range_elem. }
  assert (Hoffs : (map (fun n => (n, byte_at data (n + shift))) ns).*1
                  = (fun n => n - 0) <$> ns).
  { apply writes_offsets. intros n. simpl. lia. }
  apply write_all_ext.
  - rewrite Hoffs. apply NoDup_offsets. rewrite Hperm.
    apply range_from_NoDup_up.
  - intros w Hw. apply elem_of_writes in Hw as (n & -> & Hn).
    apply Hns in Hn. simpl. lia.
  - done.
  - intros w Hw. apply elem_of_writes in Hw as (n & -> & Hn).
    apply Hns in Hn. simpl. by apply Hin.
  - intros o Ho Hnot. rewrite Hoffs, elem_of_offsets, Hns in Hnot.
    apply Hout; [done | lia].
Qed.

End Shift.

(** The encrypt pass gives what encrypting from a snapshot of the image
    gives, whatever the order of the writes. *)
Lemma encrypt_pass_snapshot load seed0 from to data data' ns :
  window_in_image load from to data ->
  len data' = len data ->
  (forall i, 0 <= i -> i < from - load \/ to - load < i ->
     byte_at data' i = byte_at data i) ->
  (forall n, from <= n <= to ->
     byte_at data' (n - load)
     = (byte_at data (n - load)
        + (if n =? to then seed0 else byte_at data (n + 1 - load)))
       mod 256) ->
  ns ≡ₚ py_range from (to + 1) ->
  encrypt_snapshot load seed0 to ns data = data'.
Proof.
  intros (Hlo & Hft & Hhi) Hlen Hout Hin Hperm. unfold encrypt_snapshot.
  assert (Hns : forall n, n ∈ ns <-> from <= n <= to).
  { intros n. rewrite Hperm, py_range_elem. lia. }
  assert (Hoffs : (map (encrypt_write load seed0 to data) ns).*1
                  = (fun n => n - load) <$> ns).
  { by apply writes_offsets. }
  apply write_all_ext.
  - rewrite Hoffs. apply NoDup_offsets. rewrite Hperm.
    apply range_from_NoDup_up.
  - intros w Hw. apply elem_of_writes in Hw as (n & -> & Hn).
    apply Hns in Hn. simpl. lia.
  - done.
  - intros w Hw. apply elem_of_writes in Hw as (n & -> & Hn).
    apply Hns in Hn. simpl. by apply Hin.
  - intros o Ho Hnot. rewrite Hoffs, elem_of_offsets, Hns in Hnot.
    apply Hout; [done | lia].
Qed.

(** ** Slice assignment *)

Section Slices.

Implicit Types (data payload : list Z).

(** The list spliced together by a slice assignment that starts inside
    the image (or at its end). *)
Lemma splice_lookup data payload (s h k : nat) :
  (s <= length data)%nat ->
  h = (Nat.min (s + length payload) (length data)) ->
  (take s data ++ payload ++ drop h data) !! k
  = if (k <? s)%nat then data !! k
    else if (k <? s + length payload)%nat then payload !! (k - s)%nat
    else data !! k.
Proof.
  intros Hs ->.
  assert (Htake : length (take s data) = s) by (rewrite length_take; lia).
  destruct (Nat.ltb_spec k s) as [Hk | Hk].
  - rewrite lookup_app_l by lia. by apply lookup_take_lt.
  - rewrite lookup_app_r by lia. rewrite Htake.
    destruct (Nat.ltb_spec k (s + length payload)) as [Hk' | Hk'].
    + by rewrite lookup_app_l by lia.
    + rewrite lookup_app_r by lia. rewrite lookup_drop.
      destruct (decide (s + length payload <= length data)%nat).
      * f_equal. lia.
      * rewrite !lookup_ge_None_2; [done | lia | lia].
Qed.

Lemma splice_length data payload (s h : nat) :
  (s <= length data)%nat ->
  h = (Nat.min (s + length payload) (length data)) ->
  length (take s data ++ payload ++ drop h data)
  = Nat.max (length data) (s + length payload).
Proof.
  intros Hs ->. rewrite !length_app, length_take, length_drop. lia.
Qed.

(** The bounds of [data[start:start + len(payload)]] for a start inside
    the image or at its end. *)
Lemma slice_bounds_inside data payload start :
  0 <= start <= len data ->
  Z.to_nat (slice_adjust (len data) start) = Z.to_nat start
  /\ Z.to_nat (Z.max (slice_adjust (len data) start)
                 (slice_adjust (len data) (start + len payload)))
     = Nat.min (Z.to_nat start + length payload) (length data).
Proof.
  intros Hs. unfold slice_adjust, len in *.
  destruct (Z.ltb_spec start 0); [lia |].
  destruct (Z.ltb_spec (start + Z.of_nat (length payload)) 0); lia.
Qed.

Lemma setslice_inside data payload start :
  0 <= start <= len data ->
  let data' := setslice data start (start + len payload) payload in
  len data' = Z.max (len data) (start + len payload)
  /\ (forall i, 0 <= i < start -> data' !! Z.to_nat i = data !! Z.to_nat i)
  /\ (forall i, start <= i < start + len payload ->
        data' !! Z.to_nat i = payload !! Z.to_nat (i - start))
  /\ (forall i, start + len payload <= i ->
        data' !! Z.to_nat i = data !! Z.to_nat i).
Proof.
  intros Hs data'. subst data'. unfold setslice.
  destruct (slice_bounds_inside data payload start Hs) as [-> ->].
  assert (Hs' : (Z.to_nat start <= length data)%nat)
    by (unfold len in Hs; lia).
  split.
  { unfold len at 1. rewrite (splice_length _ _ _ _ Hs' eq_refl).
    unfold len. lia. }
  unfold len.
  repeat split; intros i Hi; rewrite (splice_lookup _ _ _ _ _ Hs' eq_refl).
  - destruct (Nat.ltb_spec (Z.to_nat i) (Z.to_nat start)); [done | lia].
  - destruct (Nat.ltb_spec (Z.to_nat i) (Z.to_nat start)); [lia |].
    destruct (Nat.ltb_spec (Z.to_nat i) (Z.to_nat start + length payload));
      [| lia].
    f_equal. lia.
  - destruct (Nat.ltb_spec (Z.to_nat i) (Z.to_nat start)); [lia |].
    destruct (Nat.ltb_spec (Z.to_nat i) (Z.to_nat start + length payload));
      [lia | done].
Qed.

(** A start at or past the end: the slice is the empty one at the end, and
    the payload is appended. *)
Lemma setslice_past_end data payload start :
  len data <= start ->
  setslice data start (start + len payload) payload = data ++ payload.
Proof.
  intros Hs. unfold setslice, slice_adjust.
  pose proof (len_nonneg data). pose proof (len_nonneg payload).
  destruct (Z.ltb_spec start 0); [lia |].
  destruct (Z.ltb_spec (start + len payload) 0); [lia |].
  rewrite take_ge, drop_ge, app_nil_r; [done | |]; unfold len in *; lia.
Qed.

(** A range that ends below offset 0 but starts no more than [len] below
    it: the bytes counted from the end are overwritten. *)
Lemma setslice_negative data payload start :
  - len data <= start -> start + len payload < 0 ->
  setslice data start (start + len payload) payload
  = take (Z.to_nat (len data + start)) data ++ payload
    ++ drop (Z.to_nat (len data + start + len payload)) data.
Proof.
  intros Hs He. unfold setslice, slice_adjust.
  pose proof (len_nonneg payload).
  destruct (Z.ltb_spec start 0); [| lia].
  destruct (Z.ltb_spec (start + len payload) 0); [| lia].
  do 3 f_equal; lia.
Qed.

(** No slice assignment of the form [data[start:start + len(payload)]]
    makes the image shorter. *)
Lemma setslice_length_ge data payload start :
  len data <= len (setslice data start (start + len payload) payload).
Proof.
  unfold setslice, slice_adjust, len.
  rewrite !length_app, length_take, length_drop.
  destruct (Z.ltb_spec start 0);
    destruct (Z.ltb_spec (start + Z.of_nat (length payload)) 0); lia.
Qed.

Lemma of_ints_bytes payload : bytes_ok payload -> of_ints payload = Ok payload.
Proof.
  intros Hok. unfold of_ints.
  assert (Hall : forallb is_byte payload = true).
  { apply forallb_forall. intros v Hv. apply is_byte_true.
    unfold bytes_ok in Hok. rewrite Forall_forall in Hok.
    apply Hok. by apply list_elem_of_In. }
  by rewrite Hall.
Qed.

Lemma bytes_ok_nops (count : Z) : bytes_ok (replicate (Z.to_nat count) 0xEA).
Proof. apply Forall_replicate. lia. Qed.

Lemma len_nops (count : Z) :
  len (replicate (Z.to_nat count) 0xEA) = Z.max 0 count.
Proof. unfold len. rewrite length_replicate. lia. Qed.

End Slices.

(** ** The patch primitives never refuse an offset *)

Section Primitives.

Variable load : Z.
Implicit Types (data payload : list Z).

Lemma insert_bytes_ok data addr payload :
  bytes_ok payload ->
  insert_bytes load data addr payload
  = Ok (setslice data (get_offset load addr)
          (get_offset load addr + len payload) payload).
Proof.
  intros Hok. unfold insert_bytes. by rewrite (of_ints_bytes _ Hok).
Qed.

Lemma list_repeat_ok v count :
  repeat_count_ok count ->
  list_repeat v count = Ok (replicate (Z.to_nat count) v).
Proof.
  unfold repeat_count_ok, list_repeat. intros [Hlo Hhi].
  destruct (Z.ltb_spec count (- index_max - 1)); [lia |].
  destruct (Z.ltb_spec index_max count).
  { assert (index_max / 8 <= index_max) by (by vm_compute). lia. }
  destruct (Z.ltb_spec (index_max / 8) count); [lia | done].
Qed.

Lemma filler_count_repeats count :
  filler_count_ok count -> repeat_count_ok count.
Proof.
  unfold filler_count_ok, repeat_count_ok. intros [Hlo Hhi].
  assert (address_space <= index_max / 8) by (by vm_compute). lia.
Qed.

Lemma list_repeat_cases v count :
  (repeat_count_ok count
   /\ list_repeat v count = Ok (replicate (Z.to_nat count) v))
  \/ ((count < - index_max - 1 \/ index_max < count)
      /\ list_repeat v count = Raise OverflowError)
  \/ (index_max / 8 < count <= index_max
      /\ list_repeat v count = Raise MemoryError).
Proof.
  unfold repeat_count_ok, list_repeat.
  destruct (Z.ltb_spec count (- index_max - 1)).
  { right. left. split; [lia | done]. }
  destruct (Z.ltb_spec index_max count).
  { right. left. split; [lia | done]. }
  destruct (Z.ltb_spec (index_max / 8) count).
  - right. right. split; [lia | done].
  - left. split; [lia | done].
Qed.

Lemma insert_nops_ok data addr count :
  repeat_count_ok count ->
  insert_nops load data addr count
  = Ok (setslice data (get_offset load addr)
          (get_offset load addr + len (replicate (Z.to_nat count) 0xEA))
          (replicate (Z.to_nat count) 0xEA)).
Proof.
  intros Hcount. unfold insert_nops. rewrite (list_repeat_ok _ _ Hcount).
  cbn [bind]. apply insert_bytes_ok, bytes_ok_nops.
Qed.

Lemma insert_nops_overflow data addr count :
  count < - index_max - 1 \/ index_max < count ->
  insert_nops load data addr count = Raise OverflowError.
Proof.
  intros Hcount.
  destruct (list_repeat_cases 0xEA count)
    as [[Hok _] | [[_ Hraise] | [Hmem _]]].
  - unfold repeat_count_ok in Hok.
    assert (index_max / 8 <= index_max) by (by vm_compute). lia.
  - unfold insert_nops. by rewrite Hraise.
  - assert (0 <= index_max / 8) by (by vm_compute). lia.
Qed.

Lemma insert_nops_inv data addr count d :
  insert_nops load data addr count = Ok d ->
  repeat_count_ok count
  /\ d = setslice data (get_offset load addr)
           (get_offset load addr + len (replicate (Z.to_nat count) 0xEA))
           (replicate (Z.to_nat count) 0xEA).
Proof.
  intros Hrun.
  destruct (list_repeat_cases 0xEA count)
    as [[Hcount _] | [[_ Hraise] | [_ Hraise]]].
  - split; [exact Hcount |]. rewrite (insert_nops_ok _ _ _ Hcount) in Hrun.
    by injection Hrun.
  - unfold insert_nops in Hrun. by rewrite Hraise in Hrun.
  - unfold insert_nops in Hrun. by rewrite Hraise in Hrun.
Qed.

Lemma insert_binary_file_ok (fs : files) data addr filename content :
  fs !! filename = Some content ->
  insert_binary_file fs load data addr filename
  = Ok (setslice data (get_offset load addr)
          (get_offset load addr + len content) content).
Proof.
  intros Hfile. unfold insert_binary_file, read_file. by rewrite Hfile.
Qed.

(** Whatever an insert returns is the slice assignment of some payload at
    the offset of its address. *)
Lemma insert_bytes_inv data addr payload data' :
  insert_bytes load data addr payload = Ok data' ->
  data' = setslice data (get_offset load addr)
            (get_offset load addr + len payload) payload.
Proof.
  unfold insert_bytes, of_ints.
  destruct (forallb is_byte payload); simpl; congruence.
Qed.

Lemma insert_binary_file_inv (fs : files) data addr filename data' :
  insert_binary_file fs load data addr filename = Ok data' ->
  exists content,
    fs !! filename = Some content
    /\ data' = setslice data (get_offset load addr)
                 (get_offset load addr + len content) content.
Proof.
  unfold insert_binary_file, read_file.
  destruct (fs !! filename) as [content |]; simpl; [| done].
  intros [= <-]. by exists content.
Qed.

End Primitives.

(** ** Loops of item assignments keep the length *)

Section Lengths.

Lemma setitem_len data i v data' :
  setitem data i v = Ok data' -> len data' = len data.
Proof.
  unfold setitem.
  destruct (index_ok _ _); [| done].
  destruct (is_byte v); [| done].
  intros [= <-]. apply len_insert.
Qed.

Lemma bind_ok_inv {A B : Type} (c : result A) (k : A -> result B) (b : B) :
  (do a <- c ;; k a) = Ok b -> exists a, c = Ok a /\ k a = Ok b.
Proof. destruct c as [a | e]; simpl; [by exists a | done]. Qed.

Lemma for_each_invariant {S : Type} (P : S -> Prop)
    (body : Z -> S -> result S) :
  (forall n s s', body n s = Ok s' -> P s -> P s') ->
  forall ns s s', for_each ns body s = Ok s' -> P s -> P s'.
Proof.
  intros Hbody. induction ns as [| n ns IH]; intros s s' Hrun Hs.
  - simpl in Hrun. by inversion Hrun; subst.
  - simpl in Hrun. apply bind_ok_inv in Hrun as (s1 & Hs1 & Hrest).
    eapply IH; [exact Hrest |]. eapply Hbody; [exact Hs1 | exact Hs].
Qed.

Lemma shift_block_len shift first count data data' :
  shift_block shift first count data = Ok data' -> len data' = len data.
Proof.
  unfold shift_block. intros Hrun.
  apply (for_each_invariant (fun d => len d = len data)
           (shift_body shift)) in Hrun; [done | | done].
  intros n s s' Hbody Hs. unfold shift_body in Hbody.
  apply bind_ok_inv in Hbody as (v & _ & Hset).
  apply setitem_len in Hset. lia.
Qed.

End Lengths.

(** ** The protection patch and the platform *)

Section Protection.

Lemma patch_gma1_pal data :
  patch_gma1 "pal" data
  = (do d <- setitem data 0x25 0xEA ;;
     do d <- setitem d 0x26 0xEA ;;
     do d <- setitem d 0x27 0xEA ;;
     setitem d 0x2C 0xD0).
Proof. done. Qed.

Lemma patch_gma1_other platform data :
  platform <> "pal"%string ->
  patch_gma1 platform data
  = (do d <- setitem data 0x14 0xEA ;;
     do d <- setitem d 0x16 0xEA ;;
     setitem d 0x15 0xEA).
Proof.
  intros Hne. unfold patch_gma1.
  destruct (String.eqb_spec platform "pal"); [done | done].
Qed.

Lemma platform_of_argv_two script platform :
  platform_of_argv [script; platform] = platform.
Proof. done. Qed.

Lemma platform_of_argv_one script : platform_of_argv [script] = "pal"%string.
Proof. done. Qed.

(** The run looks at its arguments only through the protection patch. *)
Lemma main_platform argv argv' fs :
  (forall data,
     patch_gma1 (platform_of_argv argv) data
     = patch_gma1 (platform_of_argv argv') data) ->
  main argv fs = main argv' fs.
Proof.
  intros Hsame. unfold main.
  destruct (read_file fs "gma6") as [gma6 |]; simpl; [| done].
  destruct (decrypt _ _ _ _ _) as [d1 |]; simpl; [| done].
  destruct (modify_flicker_free _ _) as [d2 |]; simpl; [| done].
  destruct (modify_editor _ _) as [d3 |]; simpl; [| done].
  destruct (encrypt _ _ _ _ _) as [d4 |]; simpl; [| done].
  destruct (read_file _ "gma1") as [gma1 |]; simpl; [| done].
  by rewrite Hsame.
Qed.

(** What a run that ends well has done to the protection image. *)
Lemma main_protection argv fs fs' :
  main argv fs = Ok fs' ->
  exists gma1 patched,
    fs !! "gma1"%string = Some gma1
    /\ patch_gma1 (platform_of_argv argv) gma1 = Ok patched
    /\ fs' !! "gma1.modified"%string = Some patched.
Proof.
  unfold main. intros Hrun.
  apply bind_ok_inv in Hrun as (gma6 & _ & Hrun).
  apply bind_ok_inv in Hrun as (d1 & _ & Hrun).
  apply bind_ok_inv in Hrun as (d2 & _ & Hrun).
  apply bind_ok_inv in Hrun as (d3 & _ & Hrun).
  apply bind_ok_inv in Hrun as (d4 & _ & Hrun).
  apply bind_ok_inv in Hrun as (gma1 & Hgma1 & Hrun).
  apply bind_ok_inv in Hrun as (patched & Hpatch & Hrun).
  inversion Hrun; subst. exists gma1, patched.
  split.
  - unfold read_file, write_file in Hgma1.
    rewrite !lookup_insert_ne in Hgma1 by done.
    destruct (fs !! "gma1"%string); by inversion Hgma1.
  - split; [exact Hpatch |]. unfold write_file. apply lookup_insert_eq.
Qed.

End Protection.

(** The two overwrite sets inside an image that holds their offsets. *)
Lemma pal_overwrite_set data :
  0x2C < len data ->
  patch_gma1 "pal" data
  = Ok (<[Z.to_nat 0x2C := 0xD0]>
          (<[Z.to_nat 0x27 := 0xEA]>
             (<[Z.to_nat 0x26 := 0xEA]> (<[Z.to_nat 0x25 := 0xEA]> data)))).
Proof.
  intros Hlen. rewrite patch_gma1_pal.
  rewrite setitem_in by lia. simpl bind.
  rewrite setitem_in by (rewrite ?len_insert; lia). simpl bind.
  rewrite setitem_in by (rewrite ?len_insert; lia). simpl bind.
  by rewrite setitem_in by (rewrite ?len_insert; lia).
Qed.

Lemma ntsc_overwrite_set platform data :
  platform <> "pal"%string ->
  0x16 < len data ->
  patch_gma1 platform data
  = Ok (<[Z.to_nat 0x15 := 0xEA]>
          (<[Z.to_nat 0x16 := 0xEA]> (<[Z.to_nat 0x14 := 0xEA]> data))).
Proof.
  intros Hne Hlen. rewrite (patch_gma1_other _ _ Hne).
  rewrite setitem_in by lia. simpl bind.
  rewrite setitem_in by (rewrite ?len_insert; lia). simpl bind.
  by rewrite setitem_in by (rewrite ?len_insert; lia).
Qed.

(** ** The run ends well on ready inputs *)

Section Run.

Variable n : Z.
Implicit Types (data payload : list Z) (fs : files).

Lemma bytes_ok_of_forallb payload :
  forallb is_byte payload = true -> bytes_ok payload.
Proof.
  intros Hall. apply Forall_forall. intros v Hv.
  apply list_elem_of_In in Hv.
  pose proof (proj1 (forallb_forall _ _) Hall v Hv) as Hb.
  unfold is_byte in Hb. apply andb_true_iff in Hb. lia.
Qed.

Lemma image_ok_setslice data start payload :
  image_ok n data -> bytes_ok payload ->
  image_ok n (setslice data start (start + len payload) payload).
Proof.
  intros [Hok Hlen] Hp. split.
  - unfold setslice. apply Forall_app_2; [by apply Forall_take |].
    apply Forall_app_2; [done | by apply Forall_drop].
  - pose proof (setslice_length_ge data payload start). lia.
Qed.

Lemma insert_bytes_runs data addr payload :
  image_ok n data -> forallb is_byte payload = true ->
  exists d, insert_bytes load_address data addr payload = Ok d
            /\ image_ok n d.
Proof.
  intros Hd Hp. apply bytes_ok_of_forallb in Hp.
  rewrite (insert_bytes_ok _ _ _ _ Hp). eexists. split; [reflexivity |].
  by apply image_ok_setslice.
Qed.

Lemma insert_nops_runs data addr count :
  image_ok n data ->
  repeat_count_ok count ->
  exists d, insert_nops load_address data addr count = Ok d /\ image_ok n d.
Proof.
  intros Hd Hcount. rewrite (insert_nops_ok _ _ _ _ Hcount).
  eexists. split; [reflexivity |].
  apply image_ok_setslice; [done | apply bytes_ok_nops].
Qed.

Lemma insert_binary_file_runs fs data addr filename :
  image_ok n data ->
  (exists content, fs !! filename = Some content /\ bytes_ok content) ->
  exists d, insert_binary_file fs load_address data addr filename = Ok d
            /\ image_ok n d.
Proof.
  intros Hd (content & Hfile & Hc).
  rewrite (insert_binary_file_ok _ _ _ _ _ _ Hfile).
  eexists. split; [reflexivity |]. by apply image_ok_setslice.
Qed.

Lemma shift_lda_sta_runs data :
  get_offset load_address 0x9FDD + 4 * 5 + 4 <= n ->
  image_ok n data ->
  exists d, shift_lda_sta data = Ok d /\ image_ok n d.
Proof.
  intros Hn [Hok Hlen]. unfold shift_lda_sta.
  destruct (shift_block_spec 4 ltac:(lia) (get_offset load_address 0x9FDD)
              (4 * 5) data Hok)
    as (d & Hrun & Hlen' & Hok' & _); [by vm_compute | lia | lia |].
  exists d. split; [exact Hrun |]. split; [done | lia].
Qed.

Ltac in_patch_files :=
  unfold patch_files; apply list_elem_of_In; simpl;
  repeat first [left; reflexivity | right].

(** One step of a patch sequence: run the patch at the head of the goal and
    go on with its image. *)
Lemma bind_runs {A B : Type} (P : A -> Prop) (Q : B -> Prop)
    (c : result A) (k : A -> result B) :
  (exists a, c = Ok a /\ P a) ->
  (forall a, P a -> exists b, k a = Ok b /\ Q b) ->
  exists b, bind c k = Ok b /\ Q b.
Proof. intros (a & -> & Ha) Hk. cbn [bind]. by apply Hk. Qed.

Lemma script_count_ok count :
  (0 <=? count) && (count <=? 28) = true -> repeat_count_ok count.
Proof.
  intros Hc. apply andb_prop in Hc as [Hlo Hhi].
  apply Z.leb_le in Hlo, Hhi. unfold repeat_count_ok.
  assert (28 <= index_max / 8) by (by vm_compute).
  assert (- index_max - 1 <= 0) by (by vm_compute). lia.
Qed.

Ltac patch_step Hfiles :=
  apply (bind_runs (image_ok n) (image_ok n));
  [ first
      [ apply insert_bytes_runs; [assumption | reflexivity]
      | apply insert_nops_runs;
        [assumption | apply script_count_ok; reflexivity]
      | apply insert_binary_file_runs;
        [assumption | apply Hfiles; in_patch_files]
      | apply shift_lda_sta_runs; assumption ]
  | let d := fresh "d" in
    let Hd := fresh "Hd" in
    match goal with H : image_ok n _ |- _ => clear H end;
    intros d Hd ].

Lemma modify_flicker_free_runs fs data :
  get_offset load_address 0x9FDD + 4 * 5 + 4 <= n ->
  (forall name, name ∈ patch_files ->
     exists content, fs !! name = Some content /\ bytes_ok content) ->
  image_ok n data ->
  exists d, modify_flicker_free fs data = Ok d /\ image_ok n d.
Proof.
  intros Hn Hfiles Hd. unfold modify_flicker_free. cbv zeta.
  do 19 patch_step Hfiles.
  destruct (Hfiles "extra.bin"%string) as (extra & Hextra & Hbytes).
  { in_patch_files. }
  unfold read_file. rewrite Hextra. cbn [bind].
  eexists. split; [reflexivity |].
  match goal with Hd : image_ok n _ |- _ => destruct Hd as [Hok Hlen] end.
  unfold extend. split.
  - by apply Forall_app_2.
  - rewrite len_app. pose proof (len_nonneg extra). lia.
Qed.

Lemma modify_editor_runs fs data :
  (forall name, name ∈ patch_files ->
     exists content, fs !! name = Some content /\ bytes_ok content) ->
  image_ok n data ->
  exists d, modify_editor fs data = Ok d /\ image_ok n d.
Proof.
  intros Hfiles Hd. unfold modify_editor. cbv zeta.
  do 5 patch_step Hfiles.
  apply insert_binary_file_runs; [done |].
  apply Hfiles. in_patch_files.
Qed.

End Run.

Lemma patch_files_after_write (fs : files) (name : string) (data : list Z) :
  name ∉ patch_files ->
  (forall f, f ∈ patch_files ->
     exists content, fs !! f = Some content /\ bytes_ok content) ->
  forall f, f ∈ patch_files ->
    exists content, write_file fs name data !! f = Some content
                    /\ bytes_ok content.
Proof.
  intros Hname Hfiles f Hf. unfold write_file.
  rewrite lookup_insert_ne; [by apply Hfiles |].
  intros ->. by apply Hname.
Qed.

(** With its inputs ready the run ends well, whatever its arguments. *)
Lemma main_runs argv (fs : files) :
  inputs_ready fs -> exists fs', main argv fs = Ok fs'.
Proof.
  intros ((gma6 & Hgma6 & Hok6 & Hlen6) & Hfiles & (gma1 & Hgma1 & Hlen1)).
  unfold main. unfold read_file at 1. rewrite Hgma6. cbn [bind].
  change (extend [] gma6) with gma6.
  destruct (decrypt_pass load_address seed scramble_from scramble_to gma6 Hok6)
    as (d1 & -> & Hlen & Hok1 & _).
  { apply script_window_in_image_ge. exact Hlen6. }
  cbn [bind].
  assert (Hd1 : image_ok (0x62D6 + 1 + 2) d1) by (split; [done | lia]).
  destruct (modify_flicker_free_runs (0x62D6 + 1 + 2)
              (write_file fs "gma6.decrypted" d1) d1)
    as (d2 & -> & Hd2); [by vm_compute | | done |].
  { apply patch_files_after_write; [| done].
    unfold patch_files. intros Hin. apply list_elem_of_In in Hin.
    simpl in Hin. intuition discriminate. }
  cbn [bind].
  destruct (modify_editor_runs (0x62D6 + 1 + 2)
              (write_file fs "gma6.decrypted" d1) d2)
    as (d3 & -> & [Hok3 Hlen3]); [| done |].
  { apply patch_files_after_write; [| done].
    unfold patch_files. intros Hin. apply list_elem_of_In in Hin.
    simpl in Hin. intuition discriminate. }
  cbn [bind].
  destruct (encrypt_pass load_address seed scramble_from scramble_to d3 Hok3)
    as (d4 & -> & _).
  { apply script_window_in_image_ge. exact Hlen3. }
  cbn [bind]. unfold read_file, write_file.
  rewrite !lookup_insert_ne by done. rewrite Hgma1. cbn [bind].
  change (extend [] gma1) with gma1.
  destruct (String.eqb_spec (platform_of_argv argv) "pal") as [-> | Hne].
  - rewrite (pal_overwrite_set gma1 Hlen1). cbn [bind]. by eexists.
  - rewrite (ntsc_overwrite_set _ gma1 Hne) by lia. cbn [bind]. by eexists.
Qed.

(** What a [pal] patch that ends well has written. *)
Lemma setitem_ok_in (data : list Z) i v d :
  0 <= i -> setitem data i v = Ok d -> i < len data.
Proof.
  intros Hi Hset. unfold setitem, index_adjust, index_ok in Hset.
  destruct (Z.ltb_spec i 0); [lia |].
  destruct (Z.leb_spec 0 i); [| lia].
  destruct (Z.ltb_spec i (len data)); [lia | done].
Qed.

Lemma pal_patch_bytes (data d : list Z) :
  patch_gma1 "pal" data = Ok d ->
  0x2C < len data
  /\ len d = len data
  /\ byte_at d 0x25 = 0xEA /\ byte_at d 0x26 = 0xEA
  /\ byte_at d 0x27 = 0xEA /\ byte_at d 0x2C = 0xD0
  /\ (forall i, 0 <= i -> ~ In i [0x25; 0x26; 0x27; 0x2C] ->
        byte_at d i = byte_at data i).
Proof.
  intros Hrun.
  assert (Hlen : 0x2C < len data).
  { rewrite patch_gma1_pal in Hrun.
    apply bind_ok_inv in Hrun as (d1 & H1 & Hrun).
    apply bind_ok_inv in Hrun as (d2 & H2 & Hrun).
    apply bind_ok_inv in Hrun as (d3 & H3 & Hrun).
    apply setitem_len in H1, H2, H3.
    apply setitem_ok_in in Hrun; lia. }
  rewrite (pal_overwrite_set data Hlen) in Hrun. injection Hrun as <-.
  split; [exact Hlen |].
  split; [by rewrite !len_insert |].
  repeat split.
  - rewrite !byte_at_insert_ne by lia. apply byte_at_insert_eq. lia.
  - rewrite !byte_at_insert_ne by lia.
    apply byte_at_insert_eq. rewrite !len_insert. lia.
  - rewrite !byte_at_insert_ne by lia.
    apply byte_at_insert_eq. rewrite !len_insert. lia.
  - apply byte_at_insert_eq. rewrite !len_insert. lia.
  - intros i Hi Hnot. simpl in Hnot.
    rewrite !byte_at_insert_ne by (lia || intuition lia). done.
Qed.

(** * The claims *)

(** C1: for every image of bytes, every window [[from, to]] whose offsets
    lie in the image and every seed, the decrypt pass followed by the encrypt
    pass with the same window and seed gives back the image byte for byte, and
    so does the encrypt pass followed by the decrypt pass. *)
Theorem scramble_round_trip load seed0 from to data :
  bytes_ok data ->
  window_in_image load from to data ->
  (do d <- decrypt load seed0 from to data ;; encrypt load seed0 from to d)
  = Ok data
  /\ (do e <- encrypt load seed0 from to data ;; decrypt load seed0 from to e)
     = Ok data.
Proof.
  intros Hok Hwin. split.
  - by apply decrypt_then_encrypt.
  - by apply encrypt_then_decrypt.
Qed.

(** The round trip at the window and seed of the script, on an image of
    [0x62D6 + 1] bytes after two header bytes. *)
Lemma scramble_round_trip_script :
  let image := replicate (Z.to_nat (0x62D6 + 1 + 2)) 0x20 in
  bytes_ok image
  /\ window_in_image load_address scramble_from scramble_to image
  /\ (do d <- decrypt load_address seed scramble_from scramble_to image ;;
      encrypt load_address seed scramble_from scramble_to d) = Ok image
  /\ (do e <- encrypt load_address seed scramble_from scramble_to image ;;
      decrypt load_address seed scramble_from scramble_to e) = Ok image.
Proof.
  intros image.
  assert (Hok : bytes_ok image) by (apply Forall_replicate; lia).
  assert (Hwin : window_in_image load_address scramble_from scramble_to image).
  { apply script_window_in_image. unfold image, len.
    rewrite length_replicate. lia. }
  split; [exact Hok |]. split; [exact Hwin |].
  exact (scramble_round_trip load_address seed scramble_from scramble_to
           image Hok Hwin).
Defined.

(** C2: the decrypt pass visits the addresses from [to] down to [from], each
    one below the one before; at address [n] it stores [(cipher[n] - seed)
    mod 256] and carries that value as the seed to the next address, the
    first seed being the one supplied; bytes outside the window keep their
    value. *)
Theorem decrypt_descending_chain load seed0 from to data :
  bytes_ok data ->
  window_in_image load from to data ->
  head (py_range_down to (from - 1)) = Some to
  /\ (forall n, n ∈ py_range_down to (from - 1) <-> from <= n <= to)
  /\ (forall (i : nat) a b,
        py_range_down to (from - 1) !! i = Some a ->
        py_range_down to (from - 1) !! S i = Some b ->
        b = a - 1)
  /\ (forall image s n,
        0 <= n - load < len image ->
        let plain := (byte_at image (n - load) - s) mod 256 in
        decrypt_body load n (image, s)
        = Ok (<[Z.to_nat (n - load) := plain]> image, plain))
  /\ exists data',
       decrypt load seed0 from to data = Ok data'
       /\ len data' = len data
       /\ (forall n, from <= n <= to ->
             byte_at data' (n - load)
             = (byte_at data (n - load)
                - (if n =? to then seed0 else byte_at data' (n + 1 - load)))
               mod 256)
       /\ (forall i, 0 <= i -> i < from - load \/ to - load < i ->
             byte_at data' i = byte_at data i).
Proof.
  intros Hok Hwin.
  split; [apply py_range_down_head; destruct Hwin; lia |].
  split; [intros n; rewrite py_range_down_elem; lia |].
  split; [apply py_range_down_consecutive |].
  split.
  - intros image s n Hn plain. unfold decrypt_body.
    rewrite (getitem_in _ _ Hn). simpl bind.
    by rewrite (setitem_in _ _ _ Hn (mod_256_byte _)).
  - destruct (decrypt_pass load seed0 from to data Hok Hwin)
      as (data' & Hrun & Hlen & _ & Hout & Hin).
    by exists data'.
Qed.

Lemma decrypt_descending_chain_example :
  bytes_ok [1; 2; 3; 4; 5; 6; 7]
  /\ window_in_image 10 12 15 [1; 2; 3; 4; 5; 6; 7]
  /\ exists data',
       decrypt 10 0x49 12 15 [1; 2; 3; 4; 5; 6; 7] = Ok data'
       /\ byte_at data' 5 = (6 - 0x49) mod 256
       /\ byte_at data' 4 = (5 - byte_at data' 5) mod 256
       /\ byte_at data' 6 = 7.
Proof.
  assert (Hok : bytes_ok [1; 2; 3; 4; 5; 6; 7]).
  { repeat constructor; lia. }
  assert (Hwin : window_in_image 10 12 15 [1; 2; 3; 4; 5; 6; 7]).
  { unfold window_in_image, len. simpl. lia. }
  split; [exact Hok |]. split; [exact Hwin |].
  destruct (decrypt_descending_chain 10 0x49 12 15 _ Hok Hwin)
    as (_ & _ & _ & _ & data' & Hrun & _ & Hin & Hout).
  exists data'. split; [exact Hrun |].
  split; [exact (Hin 15 ltac:(lia)) |].
  split; [exact (Hin 14 ltac:(lia)) |].
  exact (Hout 6 ltac:(lia) ltac:(lia)).
Defined.

(** C3: the encrypt pass visits the addresses from [from] up to [to - 1],
    each one above the one before, storing [(plain[n] + plain[n + 1]) mod
    256] with [plain[n + 1]] the byte not yet encrypted; the byte at [to]
    then becomes [(plain[to] + seed) mod 256]; the result is the one of a
    pass that reads every byte of the window from a snapshot taken before
    any write. *)
Theorem encrypt_ascending_snapshot load seed0 from to data :
  bytes_ok data ->
  window_in_image load from to data ->
  (from < to -> head (py_range from to) = Some from)
  /\ (forall n, n ∈ py_range from to <-> from <= n <= to - 1)
  /\ (forall (i : nat) a b,
        py_range from to !! i = Some a ->
        py_range from to !! S i = Some b ->
        b = a + 1)
  /\ (forall image n,
        0 <= n - load -> n + 1 - load < len image ->
        encrypt_body load n image
        = Ok (<[Z.to_nat (n - load) :=
                  (byte_at image (n - load) + byte_at image (n + 1 - load))
                  mod 256]> image))
  /\ exists data',
       encrypt load seed0 from to data = Ok data'
       /\ len data' = len data
       /\ (forall n, from <= n <= to - 1 ->
             byte_at data' (n - load)
             = (byte_at data (n - load) + byte_at data (n + 1 - load))
               mod 256)
       /\ byte_at data' (to - load) = (byte_at data (to - load) + seed0) mod 256
       /\ (forall i, 0 <= i -> i < from - load \/ to - load < i ->
             byte_at data' i = byte_at data i)
       /\ (forall ns, ns ≡ₚ py_range from (to + 1) ->
             encrypt_snapshot load seed0 to ns data = data').
Proof.
  intros Hok Hwin.
  split; [apply py_range_head |].
  split; [intros n; rewrite py_range_elem; lia |].
  split; [apply py_range_consecutive |].
  split.
  - intros image n Hlo Hhi. unfold encrypt_body.
    assert (Hn : 0 <= n - load < len image) by lia.
    assert (Hn1 : 0 <= n + 1 - load < len image) by lia.
    rewrite (getitem_in _ _ Hn). simpl bind.
    rewrite (getitem_in _ _ Hn1). simpl bind.
    by rewrite (setitem_in _ _ _ Hn (mod_256_byte _)).
  - destruct (encrypt_pass load seed0 from to data Hok Hwin)
      as (data' & Hrun & Hlen & _ & Hout & Hin).
    exists data'. split; [done |]. split; [done |].
    destruct Hwin as (Hlo & Hft & Hhi).
    split.
    { intros n Hn. rewrite Hin by lia.
      destruct (Z.eqb_spec n to); [lia | done]. }
    split.
    { rewrite Hin by lia. by rewrite Z.eqb_refl. }
    split; [done |].
    intros ns Hperm.
    by apply (encrypt_pass_snapshot load seed0 from to data data' ns).
Qed.

Lemma encrypt_ascending_snapshot_example :
  bytes_ok [1; 2; 3; 4; 5; 6; 7]
  /\ window_in_image 10 12 15 [1; 2; 3; 4; 5; 6; 7]
  /\ exists data',
       encrypt 10 0x49 12 15 [1; 2; 3; 4; 5; 6; 7] = Ok data'
       /\ byte_at data' 2 = (3 + 4) mod 256
       /\ byte_at data' 5 = (6 + 0x49) mod 256
       /\ encrypt_snapshot 10 0x49 15 [14; 12; 15; 13] [1; 2; 3; 4; 5; 6; 7]
          = data'.
Proof.
  assert (Hok : bytes_ok [1; 2; 3; 4; 5; 6; 7]).
  { repeat constructor; lia. }
  assert (Hwin : window_in_image 10 12 15 [1; 2; 3; 4; 5; 6; 7]).
  { unfold window_in_image, len. simpl. lia. }
  split; [exact Hok |]. split; [exact Hwin |].
  destruct (encrypt_ascending_snapshot 10 0x49 12 15 _ Hok Hwin)
    as (_ & _ & _ & _ & data' & Hrun & _ & Hin & Hto & _ & Hsnap).
  exists data'. split; [exact Hrun |].
  split; [exact (Hin 12 ltac:(lia)) |].
  split; [exact Hto |].
  apply Hsnap. vm_compute.
  (* [14; 12; 15; 13] is [12; 13; 14; 15] rearranged *)
  apply (perm_trans (l' := [12; 14; 15; 13])); [apply perm_swap |].
  apply perm_skip.
  apply (perm_trans (l' := [14; 13; 15])); [apply perm_skip, perm_swap |].
  apply (perm_trans (l' := [13; 14; 15])); [apply perm_swap |].
  reflexivity.
Defined.

(** C4, as the code has it: no insert checks its offsets, and none aborts
    on them.  A start offset at or past the end of the image appends the
    payload to the image; a range that lies below offset 0 overwrites the
    bytes counted from the end of the image.  The filler is built before
    the insert, for a count within [filler_count_ok]. *)
Theorem insert_accepts_every_offset (fs : files) load data addr payload
    filename content count :
  bytes_ok payload ->
  fs !! filename = Some content ->
  let start := get_offset load addr in
  let lands (insert d : list Z) :=
    (len data <= start -> d = data ++ insert)
    /\ (- len data <= start -> start + len insert < 0 ->
        d = take (Z.to_nat (len data + start)) data ++ insert
            ++ drop (Z.to_nat (len data + start + len insert)) data) in
  (exists d, insert_bytes load data addr payload = Ok d /\ lands payload d)
  /\ (exists d, insert_binary_file fs load data addr filename = Ok d
                /\ lands content d)
  /\ (filler_count_ok count ->
      exists d, insert_nops load data addr count = Ok d
                /\ lands (replicate (Z.to_nat count) 0xEA) d).
Proof.
  intros Hok Hfile start lands.
  assert (Hlands : forall insert,
            lands insert (setslice data start (start + len insert) insert)).
  { intros insert. split.
    - apply setslice_past_end.
    - apply setslice_negative. }
  split; [| split]; [| | intros Hcount]; eexists;
    (split; [| apply Hlands]).
  - by apply insert_bytes_ok.
  - by apply insert_binary_file_ok.
  - by apply insert_nops_ok, filler_count_repeats.
Qed.

Lemma insert_accepts_every_offset_example :
  bytes_ok [9]
  /\ filler_count_ok 2
  /\ (exists d, insert_bytes load_address [1; 2; 3] 0x6A03 [9] = Ok d
                /\ d = [1; 2; 3] ++ [9])
  /\ (exists d, insert_nops load_address [1; 2; 3] 0x6A03 2 = Ok d
                /\ d = [1; 2; 3] ++ [0xEA; 0xEA]).
Proof.
  assert (Hok : bytes_ok [9]) by (repeat constructor; lia).
  assert (Hcount : filler_count_ok 2) by (vm_compute; split; discriminate).
  split; [exact Hok |]. split; [exact Hcount |].
  destruct (insert_accepts_every_offset {["f"%string := [9]]} load_address
              [1; 2; 3] 0x6A03 [9] "f"%string [9] 2 Hok
              (lookup_singleton_eq _ _))
    as ((d & Hrun & Hpast & _) & _ & Hnops).
  destruct (Hnops Hcount) as (d' & Hrun' & Hpast' & _).
  split.
  - exists d. split; [exact Hrun |]. apply Hpast. vm_compute. discriminate.
  - exists d'. split; [exact Hrun' |]. apply Hpast'. vm_compute.
    discriminate.
Defined.

(** C4 fails: an insert whose offset range lies outside the image does not
    abort.  With three bytes in the image, an insert at offset 5 returns an
    image with the payload at offset 3, and an insert at offset -1 pushes the
    last byte up. *)
Lemma insert_out_of_range_does_not_abort :
  get_offset load_address 0x6A03 = 5
  /\ insert_bytes load_address [1; 2; 3] 0x6A03 [9] = Ok [1; 2; 3; 9]
  /\ insert_nops load_address [1; 2; 3] 0x6A03 2 = Ok [1; 2; 3; 0xEA; 0xEA]
  /\ get_offset load_address 0x69FD = -1
  /\ insert_bytes load_address [1; 2; 3] 0x69FD [9] = Ok [1; 2; 9; 3].
Proof. repeat split; reflexivity. Qed.

(** C5: the block shift leaves at the destination the bytes the source held
    before the shift, and gives what reading the whole source first and
    writing afterwards gives, in whatever order the bytes are written; the
    ranges may overlap.  This holds for the shift of the script, of 4 * 5
    bytes down by 4. *)
Theorem shift_block_reads_before_writes shift first count data :
  bytes_ok data ->
  0 <= shift -> 0 <= first -> 0 <= count ->
  first + count + shift <= len data ->
  exists data',
    shift_block shift first count data = Ok data'
    /\ (shift = 4 -> first = get_offset load_address 0x9FDD ->
        count = 4 * 5 -> shift_lda_sta data = Ok data')
    /\ len data' = len data
    /\ (forall n, first <= n < first + count ->
          byte_at data' n = byte_at data (n + shift))
    /\ (forall i, 0 <= i -> i < first \/ first + count <= i ->
          byte_at data' i = byte_at data i)
    /\ (forall ns, ns ≡ₚ py_range first (first + count) ->
          shift_snapshot shift ns data = data').
Proof.
  intros Hok Hshift Hfirst Hcount Hfit.
  destruct (shift_block_spec shift Hshift first count data Hok Hfirst Hcount
              Hfit) as (data' & Hrun & Hlen & _ & Hout & Hin).
  exists data'. split; [exact Hrun |].
  split.
  { intros -> -> ->. exact Hrun. }
  split; [exact Hlen |]. split; [exact Hin |]. split; [exact Hout |].
  intros ns Hperm.
  apply (shift_block_snapshot shift first count data data' ns); try done.
  lia.
Qed.

(** The shift of the script on an image that holds the block at its
    place, with the offset as the byte value. *)
Lemma shift_block_reads_before_writes_script :
  let image := (fun n => Z.of_nat n mod 256) <$> seq 0 (Z.to_nat 13820) in
  bytes_ok image
  /\ exists data',
       shift_lda_sta image = Ok data'
       /\ byte_at data' 13791 = byte_at image 13795
       /\ byte_at data' 13810 = byte_at image 13814.
Proof.
  intros image.
  assert (Hok : bytes_ok image).
  { apply Forall_fmap, Forall_forall. intros n _. simpl.
    apply Z.mod_pos_bound. lia. }
  assert (Hlen : len image = 13820).
  { unfold image, len. rewrite length_fmap, length_seq. lia. }
  split; [exact Hok |].
  destruct (shift_block_reads_before_writes 4
              (get_offset load_address 0x9FDD) (4 * 5) image Hok)
    as (data' & _ & Hscript & _ & Hin & _).
  { lia. } { vm_compute. discriminate. } { lia. }
  { rewrite Hlen. vm_compute. discriminate. }
  exists data'. split; [by apply Hscript |].
  split.
  - apply (Hin 13791). vm_compute. split; [discriminate | reflexivity].
  - apply (Hin 13810). vm_compute. split; [discriminate | reflexivity].
Defined.



Lemma setslice_grows_at_tail_only data payload start :
  0 <= start ->
  grows_at_tail_only data start (len payload)
    (setslice data start (start + len payload) payload).
Proof.
  intros Hstart. pose proof (len_nonneg payload) as Hp.
  destruct (decide (start <= len data)) as [Hle | Hgt].
  - destruct (setslice_inside data payload start (conj Hstart Hle))
      as (Hlen & Hbelow & _ & Habove).
    split; [lia |].
    intros i Hi [Hlt | Hge]; [apply Hbelow; lia | by apply Habove].
  - rewrite setslice_past_end by lia. split.
    + rewrite len_app. lia.
    + intros i Hi _. apply lookup_app_l. unfold len in Hi. lia.
Qed.

(** C7, as the code has it: no insert, shift or append makes the image
    shorter.  For an insert whose start offset is not negative, the image
    gets longer only when the end offset is past its end, and the bytes
    already there outside the written range stay at their offsets: the
    image grows at its tail only.  A shift keeps the length; an append
    keeps the image as a prefix. *)
Theorem patches_never_shrink (fs : files) load data addr payload filename
    count shift first n more :
  (forall d, insert_bytes load data addr payload = Ok d -> len data <= len d)
  /\ (forall d, insert_binary_file fs load data addr filename = Ok d ->
        len data <= len d)
  /\ (forall d, insert_nops load data addr count = Ok d -> len data <= len d)
  /\ (forall d, shift_block shift first n data = Ok d -> len d = len data)
  /\ (len data <= len (extend data more)
      /\ take (length data) (extend data more) = data)
  /\ (0 <= get_offset load addr ->
      (forall d, insert_bytes load data addr payload = Ok d ->
         grows_at_tail_only data (get_offset load addr) (len payload) d)
      /\ (forall d content,
            fs !! filename = Some content ->
            insert_binary_file fs load data addr filename = Ok d ->
            grows_at_tail_only data (get_offset load addr) (len content) d)
      /\ (forall d, insert_nops load data addr count = Ok d ->
            grows_at_tail_only data (get_offset load addr) (Z.max 0 count) d)).
Proof.
  split.
  { intros d Hd. apply insert_bytes_inv in Hd as ->.
    apply setslice_length_ge. }
  split.
  { intros d Hd. apply insert_binary_file_inv in Hd as (content & _ & ->).
    apply setslice_length_ge. }
  split.
  { intros d Hd. apply insert_nops_inv in Hd as [_ ->].
    apply setslice_length_ge. }
  split; [intros d Hd; by apply shift_block_len in Hd |].
  split.
  { unfold extend. split.
    - rewrite len_app. pose proof (len_nonneg more). lia.
    - by rewrite take_app_length. }
  intros Hstart. split; [| split].
  - intros d Hd. apply insert_bytes_inv in Hd as ->.
    by apply setslice_grows_at_tail_only.
  - intros d content Hfile Hd.
    apply insert_binary_file_inv in Hd as (content' & Hfile' & ->).
    rewrite Hfile in Hfile'. inversion Hfile'; subst content'.
    by apply setslice_grows_at_tail_only.
  - intros d Hd. apply insert_nops_inv in Hd as [_ ->].
    rewrite <- len_nops. by apply setslice_grows_at_tail_only.
Qed.

Lemma patches_never_shrink_example :
  insert_bytes load_address [1; 2; 3] 0x6A00 [9; 8] = Ok [1; 2; 9; 8]
  /\ 0 <= get_offset load_address 0x6A00
  /\ len [1; 2; 3] <= len [1; 2; 9; 8]
  /\ grows_at_tail_only [1; 2; 3] (get_offset load_address 0x6A00)
       (len [9; 8]) [1; 2; 9; 8].
Proof.
  assert (Hrun : insert_bytes load_address [1; 2; 3] 0x6A00 [9; 8]
                 = Ok [1; 2; 9; 8]) by reflexivity.
  assert (Hstart : 0 <= get_offset load_address 0x6A00).
  { vm_compute. discriminate. }
  destruct (patches_never_shrink ∅ load_address [1; 2; 3] 0x6A00 [9; 8]
              "shppt.bin"%string 0 4 0 0 [])
    as (Hge & _ & _ & _ & _ & Htail).
  split; [exact Hrun |]. split; [exact Hstart |].
  split; [exact (Hge _ Hrun) |].
  exact (proj1 (Htail Hstart) _ Hrun).
Defined.

(** C7 fails for a negative start offset: with three bytes in the image, an
    insert of one byte at offset -1 ends at offset 0, inside the image, and
    yet the image gets longer, the new byte going in before the last one. *)
Lemma insert_below_load_address_grows_in_the_middle :
  get_offset load_address 0x69FD = -1
  /\ get_offset load_address 0x69FD + len [9] <= len [1; 2; 3]
  /\ insert_bytes load_address [1; 2; 3] 0x69FD [9] = Ok [1; 2; 9; 3]
  /\ len [1; 2; 3] < len [1; 2; 9; 3]
  /\ [1; 2; 9; 3] !! 2%nat <> [1; 2; 3] !! 2%nat.
Proof.
  split; [reflexivity |].
  split; [vm_compute; discriminate |].
  split; [reflexivity |].
  split; [reflexivity |].
  discriminate.
Qed.

(** C8, as the code has it: the script knows [pal] and nothing else.  Every
    other platform, recognised or not, gets the overwrite set of [ntsc]:
    the run is the run of [ntsc], it raises nothing when its inputs are
    ready, and on a protection image that holds the three offsets the patch
    does not fail. *)
Theorem platform_other_than_pal_is_ntsc platform script (fs : files) data :
  platform <> "pal"%string ->
  patch_gma1 platform data = patch_gma1 "ntsc" data
  /\ main [script; platform] fs = main [script; "ntsc"%string] fs
  /\ (0x16 < len data -> is_ok (patch_gma1 platform data) = true)
  /\ (inputs_ready fs -> is_ok (main [script; platform] fs) = true).
Proof.
  intros Hne.
  assert (Hsame : forall d, patch_gma1 platform d = patch_gma1 "ntsc" d).
  { intros d. by rewrite (patch_gma1_other platform d Hne). }
  split; [apply Hsame |]. split; [| split].
  - apply main_platform. intros d. rewrite !platform_of_argv_two. apply Hsame.
  - intros Hlen. by rewrite (ntsc_overwrite_set platform data Hne Hlen).
  - intros Hready.
    destruct (main_runs [script; platform] fs Hready) as (fs' & ->). done.
Qed.

Lemma platform_other_than_pal_is_ntsc_example :
  "secam"%string <> "pal"%string
  /\ patch_gma1 "secam" (replicate 45 7) = patch_gma1 "ntsc" (replicate 45 7)
  /\ is_ok (patch_gma1 "secam" (replicate 45 7)) = true.
Proof.
  assert (Hne : "secam"%string <> "pal"%string) by discriminate.
  split; [exact Hne |].
  destruct (platform_other_than_pal_is_ntsc "secam" "elite-modify.py" ∅
              (replicate 45 7) Hne) as (Hsame & _ & Hok & _).
  split; [exact Hsame |]. apply Hok. vm_compute. reflexivity.
Defined.

(** C8 fails: a platform that is neither [pal] nor [ntsc] raises nothing;
    the protection image is patched with the overwrite set of [ntsc]. *)
Lemma unknown_platform_is_patched_as_ntsc :
  "secam"%string <> "pal"%string
  /\ "secam"%string <> "ntsc"%string
  /\ patch_gma1 "secam" (replicate 45 7)
     = Ok (replicate 20 7 ++ [0xEA; 0xEA; 0xEA] ++ replicate 22 7)
  /\ patch_gma1 "ntsc" (replicate 45 7)
     = Ok (replicate 20 7 ++ [0xEA; 0xEA; 0xEA] ++ replicate 22 7).
Proof.
  split; [discriminate |]. split; [discriminate |].
  split; reflexivity.
Qed.

(** C9: on a protection image that holds the offsets, [pal] sets the four
    offsets 0x25, 0x26, 0x27 (to 0xEA) and 0x2C (to 0xD0) and nothing else;
    [ntsc] sets the three offsets 0x14, 0x15, 0x16 (to 0xEA) and nothing
    else; no offset is in both sets. *)
Theorem protection_overwrite_sets data :
  (0x2C < len data ->
   exists d,
     patch_gma1 "pal" data = Ok d
     /\ len d = len data
     /\ byte_at d 0x25 = 0xEA /\ byte_at d 0x26 = 0xEA
     /\ byte_at d 0x27 = 0xEA /\ byte_at d 0x2C = 0xD0
     /\ (forall i, 0 <= i -> ~ In i [0x25; 0x26; 0x27; 0x2C] ->
           byte_at d i = byte_at data i))
  /\ (0x16 < len data ->
      exists d,
        patch_gma1 "ntsc" data = Ok d
        /\ len d = len data
        /\ byte_at d 0x14 = 0xEA /\ byte_at d 0x15 = 0xEA
        /\ byte_at d 0x16 = 0xEA
        /\ (forall i, 0 <= i -> ~ In i [0x14; 0x15; 0x16] ->
              byte_at d i = byte_at data i))
  /\ (forall i, In i [0x25; 0x26; 0x27; 0x2C] -> ~ In i [0x14; 0x15; 0x16]).
Proof.
  split; [| split].
  - intros Hlen. rewrite (pal_overwrite_set data Hlen).
    eexists. split; [reflexivity |].
    split; [by rewrite !len_insert |].
    repeat split.
    + rewrite !byte_at_insert_ne by lia. apply byte_at_insert_eq. lia.
    + rewrite !byte_at_insert_ne by lia.
      apply byte_at_insert_eq. rewrite !len_insert. lia.
    + rewrite !byte_at_insert_ne by lia.
      apply byte_at_insert_eq. rewrite !len_insert. lia.
    + apply byte_at_insert_eq. rewrite !len_insert. lia.
    + intros i Hi Hnot. simpl in Hnot.
      rewrite !byte_at_insert_ne by (lia || intuition lia). done.
  - intros Hlen.
    rewrite (ntsc_overwrite_set "ntsc" data ltac:(discriminate) Hlen).
    eexists. split; [reflexivity |].
    split; [by rewrite !len_insert |].
    repeat split.
    + rewrite !byte_at_insert_ne by lia. apply byte_at_insert_eq. lia.
    + apply byte_at_insert_eq. rewrite !len_insert. lia.
    + rewrite !byte_at_insert_ne by lia.
      apply byte_at_insert_eq. rewrite !len_insert. lia.
    + intros i Hi Hnot. simpl in Hnot.
      rewrite !byte_at_insert_ne by (lia || intuition lia). done.
  - intros i Hin Hin'. simpl in Hin, Hin'. intuition lia.
Qed.

Lemma protection_overwrite_sets_example :
  0x2C < len (replicate 45 7)
  /\ (exists d, patch_gma1 "pal" (replicate 45 7) = Ok d
                /\ byte_at d 0x2C = 0xD0 /\ byte_at d 0x14 = 7)
  /\ (exists d, patch_gma1 "ntsc" (replicate 45 7) = Ok d
                /\ byte_at d 0x14 = 0xEA /\ byte_at d 0x2C = 7).
Proof.
  assert (Hlen : 0x2C < len (replicate 45 7)) by reflexivity.
  assert (Hlen' : 0x16 < len (replicate 45 7)) by reflexivity.
  destruct (protection_overwrite_sets (replicate 45 7))
    as (Hpal & Hntsc & _).
  split; [exact Hlen |]. split.
  - destruct (Hpal Hlen) as (d & Hrun & _ & _ & _ & _ & H2C & Hother).
    exists d. split; [exact Hrun |]. split; [exact H2C |].
    rewrite (Hother 0x14); [reflexivity | lia |].
    simpl. intuition lia.
  - destruct (Hntsc Hlen') as (d & Hrun & _ & H14 & _ & _ & Hother).
    exists d. split; [exact Hrun |]. split; [exact H14 |].
    rewrite (Hother 0x2C); [reflexivity | lia |].
    simpl. intuition lia.
Defined.

(** C10: without a platform argument the platform is [pal]: the run is the
    run of an explicit [pal], no exception comes from the missing argument
    (with its inputs ready the run ends well), and a run that ends well has
    written the protection image with the overwrite set of [pal]: 0xEA at
    the offsets 0x25, 0x26 and 0x27, 0xD0 at the offset 0x2C, every other
    byte of [gma1] as it was. *)
Theorem platform_defaults_to_pal script (fs : files) :
  platform_of_argv [script] = "pal"%string
  /\ platform_of_argv [] = "pal"%string
  /\ main [script] fs = main [script; "pal"%string] fs
  /\ (forall data,
        patch_gma1 (platform_of_argv [script]) data = patch_gma1 "pal" data)
  /\ (inputs_ready fs -> exists fs', main [script] fs = Ok fs')
  /\ (forall fs',
        main [script] fs = Ok fs' ->
        exists gma1 patched,
          fs !! "gma1"%string = Some gma1
          /\ patch_gma1 "pal" gma1 = Ok patched
          /\ fs' !! "gma1.modified"%string = Some patched
          /\ 0x2C < len gma1
          /\ len patched = len gma1
          /\ byte_at patched 0x25 = 0xEA /\ byte_at patched 0x26 = 0xEA
          /\ byte_at patched 0x27 = 0xEA /\ byte_at patched 0x2C = 0xD0
          /\ (forall i, 0 <= i -> ~ In i [0x25; 0x26; 0x27; 0x2C] ->
                byte_at patched i = byte_at gma1 i)).
Proof.
  split; [done |]. split; [done |]. split; [done |]. split; [done |].
  split; [apply main_runs |].
  intros fs' Hrun.
  destruct (main_protection [script] fs fs' Hrun)
    as (gma1 & patched & Hgma1 & Hpatch & Hout).
  exists gma1, patched.
  split; [exact Hgma1 |]. split; [exact Hpatch |]. split; [exact Hout |].
  by apply pal_patch_bytes.
Qed.

(** A working directory with a blank [gma6] of the size of the scramble
    window, empty routines and a [gma1] of 45 bytes of 7: the run without a
    platform argument ends well and writes [gma1] with 0xEA at 0x25, 0x26
    and 0x27, 0xD0 at 0x2C, and 7 elsewhere. *)
Lemma platform_defaults_to_pal_example :
  let fs : files :=
    <["gma6"%string := replicate (Z.to_nat (0x62D6 + 1 + 2)) 0x20]>
      (<["gma1"%string := replicate 45 7]>
         (<["shppt.bin"%string := []]>
            (<["ll78.bin"%string := []]>
               (<["ll155.bin"%string := []]>
                  (<["extra.bin"%string := []]>
                     (<["editor.bin"%string := []]> ∅)))))) in
  inputs_ready fs
  /\ exists fs' patched,
       main ["elite-modify.py"%string] fs = Ok fs'
       /\ patch_gma1 "pal" (replicate 45 7) = Ok patched
       /\ fs' !! "gma1.modified"%string = Some patched
       /\ len patched = 45
       /\ byte_at patched 0x25 = 0xEA /\ byte_at patched 0x26 = 0xEA
       /\ byte_at patched 0x27 = 0xEA /\ byte_at patched 0x2C = 0xD0
       /\ byte_at patched 0x24 = 7 /\ byte_at patched 0x28 = 7.
Proof.
  intros fs.
  assert (Hready : inputs_ready fs).
  { split; [| split].
    - eexists. split; [apply lookup_insert_eq |]. split.
      + apply Forall_replicate. lia.
      + unfold len. rewrite length_replicate. lia.
    - intros name Hname. unfold patch_files in Hname.
      apply list_elem_of_In in Hname. simpl in Hname.
      exists []. split; [| constructor].
      unfold fs.
      destruct Hname as [<- | [<- | [<- | [<- | [<- | []]]]]];
        repeat (rewrite lookup_insert_ne by discriminate);
        apply lookup_insert_eq.
    - eexists. split.
      + unfold fs. rewrite lookup_insert_ne by discriminate.
        apply lookup_insert_eq.
      + reflexivity. }
  split; [exact Hready |].
  destruct (platform_defaults_to_pal "elite-modify.py" fs)
    as (_ & _ & _ & _ & Hruns & Hpal).
  destruct (Hruns Hready) as (fs' & Hrun).
  destruct (Hpal fs' Hrun)
    as (gma1 & patched & Hgma1 & Hpatch & Hout & _ & Hlen & H25 & H26 & H27
        & H2C & Hrest).
  exists fs', patched. split; [exact Hrun |].
  unfold fs in Hgma1. rewrite lookup_insert_ne in Hgma1 by discriminate.
  rewrite lookup_insert_eq in Hgma1. inversion Hgma1; subst gma1.
  split; [exact Hpatch |]. split; [exact Hout |].
  split; [exact Hlen |].
  split; [exact H25 |]. split; [exact H26 |]. split; [exact H27 |].
  split; [exact H2C |].
  split.
  - rewrite (Hrest 0x24); [reflexivity | lia |].
    simpl. intuition discriminate.
  - rewrite (Hrest 0x28); [reflexivity | lia |].
    simpl. intuition discriminate.
Defined.

(** * Further properties of the codec *)

Section CodecEdges.

Variable load : Z.
Implicit Types (data : list Z).

Lemma getitem_past_end data i :
  0 <= i -> len data <= i -> getitem data i = Raise IndexError.
Proof.
  intros Hi Hlen. unfold getitem, index_adjust, index_ok.
  destruct (Z.ltb_spec i 0); [lia |].
  destruct (Z.leb_spec 0 i); [| lia].
  destruct (Z.ltb_spec i (len data)); [lia | done].
Qed.

(** [data[i]] gives a byte or raises [IndexError]. *)
Lemma getitem_cases data i :
  getitem data i = Raise IndexError \/ exists v, getitem data i = Ok v.
Proof.
  unfold getitem. destruct (index_ok _ _); [right; by eexists | by left].
Qed.

(** [data[i] = v] for a byte [v] keeps the length or raises [IndexError]. *)
Lemma setitem_byte_cases data i v :
  0 <= v < 256 ->
  setitem data i v = Raise IndexError
  \/ exists d, setitem data i v = Ok d /\ len d = len data.
Proof.
  intros Hv. unfold setitem. destruct (index_ok _ _); [| by left].
  rewrite (is_byte_true _ Hv). right. eexists. split; [done |].
  apply len_insert.
Qed.

Lemma decrypt_body_cases n data s :
  decrypt_body load n (data, s) = Raise IndexError
  \/ exists d s', decrypt_body load n (data, s) = Ok (d, s')
                  /\ len d = len data.
Proof.
  unfold decrypt_body.
  destruct (getitem_cases data (n - load)) as [-> | [x ->]]; [by left |].
  simpl bind.
  destruct (setitem_byte_cases data (n - load) ((x - s) mod 256)
              (mod_256_byte _)) as [-> | (d & -> & Hlen)]; [by left |].
  right. by exists d, ((x - s) mod 256).
Qed.

Lemma encrypt_body_cases n data :
  encrypt_body load n data = Raise IndexError
  \/ exists d, encrypt_body load n data = Ok d /\ len d = len data.
Proof.
  unfold encrypt_body.
  destruct (getitem_cases data (n - load)) as [-> | [a ->]]; [by left |].
  simpl bind.
  destruct (getitem_cases data (n + 1 - load)) as [-> | [b ->]]; [by left |].
  simpl bind. apply setitem_byte_cases, mod_256_byte.
Qed.

Lemma decrypt_loop_cases : forall ns data s,
  for_each ns (decrypt_body load) (data, s) = Raise IndexError
  \/ exists d s', for_each ns (decrypt_body load) (data, s) = Ok (d, s')
                  /\ len d = len data.
Proof.
  induction ns as [| n ns IH]; intros data s.
  - right. by exists data, s.
  - cbn [for_each].
    destruct (decrypt_body_cases n data s) as [-> | (d & s' & -> & Hlen)];
      [by left |].
    simpl bind. destruct (IH d s') as [-> | (d' & s'' & -> & Hlen')];
      [by left |].
    right. exists d', s''. split; [done | lia].
Qed.

Lemma encrypt_loop_cases : forall ns data,
  for_each ns (encrypt_body load) data = Raise IndexError
  \/ exists d, for_each ns (encrypt_body load) data = Ok d
               /\ len d = len data.
Proof.
  induction ns as [| n ns IH]; intros data.
  - right. by exists data.
  - cbn [for_each].
    destruct (encrypt_body_cases n data) as [-> | (d & -> & Hlen)];
      [by left |].
    simpl bind. destruct (IH d) as [-> | (d' & -> & Hlen')]; [by left |].
    right. exists d'. split; [done | lia].
Qed.

Lemma decrypt_cases seed0 from to data :
  decrypt load seed0 from to data = Raise IndexError
  \/ exists d, decrypt load seed0 from to data = Ok d /\ len d = len data.
Proof.
  unfold decrypt.
  destruct (decrypt_loop_cases (py_range_down to (from - 1)) data seed0)
    as [-> | (d & s' & -> & Hlen)]; [by left |].
  right. by exists d.
Qed.

Lemma encrypt_cases seed0 from to data :
  encrypt load seed0 from to data = Raise IndexError
  \/ exists d, encrypt load seed0 from to data = Ok d /\ len d = len data.
Proof.
  unfold encrypt.
  destruct (encrypt_loop_cases (py_range from to) data)
    as [-> | (d1 & -> & Hlen)]; [by left |].
  simpl bind.
  destruct (getitem_cases d1 (to - load)) as [-> | [a ->]]; [by left |].
  simpl bind.
  destruct (setitem_byte_cases d1 (to - load) ((a + seed0) mod 256)
              (mod_256_byte _)) as [-> | (d & -> & Hlen')]; [by left |].
  right. exists d. split; [done | lia].
Qed.

(** The decrypt pass starts at the top of the window: with the top past
    the end of the image the first read raises. *)
Lemma decrypt_past_end seed0 from to data :
  from <= to -> 0 <= to - load -> len data <= to - load ->
  decrypt load seed0 from to data = Raise IndexError.
Proof.
  intros Hft Hlo Hhi. unfold decrypt, py_range_down.
  destruct (Z.to_nat (to - (from - 1))) as [| k] eqn:Hk; [lia |].
  simpl for_each. unfold decrypt_body.
  by rewrite (getitem_past_end _ _ Hlo Hhi).
Qed.

(** The encrypt pass ends at the top of the window: with the top past the
    end of the image it raises, in the loop or at the last byte. *)
Lemma encrypt_past_end seed0 from to data :
  0 <= to - load -> len data <= to - load ->
  encrypt load seed0 from to data = Raise IndexError.
Proof.
  intros Hlo Hhi. unfold encrypt.
  destruct (encrypt_loop_cases (py_range from to) data)
    as [-> | (d1 & -> & Hlen)]; [done |].
  simpl bind. by rewrite getitem_past_end by lia.
Qed.

End CodecEdges.

(** X1: either pass of the codec ends with an image of the same length or
    raises [IndexError], never anything else; and when the offset of the top
    of the window is at or past the end of the image both passes raise
    [IndexError]. *)
Theorem codec_raises_index_error_only load seed0 from to data :
  (decrypt load seed0 from to data = Raise IndexError
   \/ exists d, decrypt load seed0 from to data = Ok d /\ len d = len data)
  /\ (encrypt load seed0 from to data = Raise IndexError
      \/ exists d, encrypt load seed0 from to data = Ok d
                   /\ len d = len data)
  /\ (from <= to -> 0 <= to - load -> len data <= to - load ->
      decrypt load seed0 from to data = Raise IndexError
      /\ encrypt load seed0 from to data = Raise IndexError).
Proof.
  split; [apply decrypt_cases |]. split; [apply encrypt_cases |].
  intros Hft Hlo Hhi. split.
  - by apply decrypt_past_end.
  - by apply encrypt_past_end.
Qed.

Lemma codec_raises_index_error_only_example :
  decrypt 10 0x49 12 17 [1; 2; 3; 4; 5; 6; 7] = Raise IndexError
  /\ encrypt 10 0x49 12 17 [1; 2; 3; 4; 5; 6; 7] = Raise IndexError.
Proof.
  destruct (codec_raises_index_error_only 10 0x49 12 17 [1; 2; 3; 4; 5; 6; 7])
    as (_ & _ & Hpast).
  apply Hpast; vm_compute; discriminate.
Defined.

(** X2: a [gma6] too short for the scramble window ends the run with
    [IndexError], whatever else the working directory holds; a missing
    [gma6] ends it with [FileNotFoundError]. *)
Theorem short_gma6_ends_the_run argv (fs : files) :
  (fs !! "gma6"%string = None -> main argv fs = Raise FileNotFoundError)
  /\ (forall gma6,
        fs !! "gma6"%string = Some gma6 ->
        len gma6 < 0x62D6 + 1 + 2 ->
        main argv fs = Raise IndexError).
Proof.
  split.
  - intros Hnone. unfold main, read_file. by rewrite Hnone.
  - intros gma6 Hgma6 Hshort. unfold main, read_file. rewrite Hgma6.
    cbn [bind]. change (extend [] gma6) with gma6.
    rewrite decrypt_past_end; [done | | |];
      unfold scramble_from, scramble_to, load_address; lia.
Qed.

Lemma short_gma6_ends_the_run_example :
  main ["elite-modify.py"%string] {["gma6"%string := [1; 2; 3]]}
  = Raise IndexError
  /\ main ["elite-modify.py"%string] ∅ = Raise FileNotFoundError.
Proof.
  destruct (short_gma6_ends_the_run ["elite-modify.py"%string]
              {["gma6"%string := [1; 2; 3]]}) as (_ & Hshort).
  destruct (short_gma6_ends_the_run ["elite-modify.py"%string] ∅)
    as (Hnone & _).
  split.
  - apply (Hshort [1; 2; 3]); [apply lookup_singleton_eq |].
    vm_compute. reflexivity.
  - apply Hnone. apply lookup_empty.
Defined.

(** X3: the passes use the seed modulo 256: two seeds that differ by a
    multiple of 256 give the same result, an exception included. *)
Theorem seed_counts_modulo_256 load s s' from to data :
  s mod 256 = s' mod 256 ->
  decrypt load s from to data = decrypt load s' from to data
  /\ encrypt load s from to data = encrypt load s' from to data.
Proof.
  intros Hs. split.
  - unfold decrypt.
    destruct (py_range_down to (from - 1)) as [| n ns]; [done |].
    cbn [for_each]. unfold decrypt_body at 1 3.
    destruct (getitem data (n - load)) as [x |]; [| done]. cbn [bind].
    by rewrite (Zminus_mod x s), Hs, <- Zminus_mod.
  - unfold encrypt.
    destruct (for_each _ _ data) as [d1 |]; [| done]. cbn [bind].
    destruct (getitem d1 (to - load)) as [a |]; [| done]. cbn [bind].
    by rewrite (Zplus_mod a s), Hs, <- Zplus_mod.
Qed.

Lemma seed_counts_modulo_256_example :
  decrypt 10 0x149 12 15 [1; 2; 3; 4; 5; 6; 7]
  = decrypt 10 0x49 12 15 [1; 2; 3; 4; 5; 6; 7]
  /\ encrypt 10 0x149 12 15 [1; 2; 3; 4; 5; 6; 7]
     = encrypt 10 0x49 12 15 [1; 2; 3; 4; 5; 6; 7].
Proof.
  apply (seed_counts_modulo_256 10 0x149 0x49 12 15 [1; 2; 3; 4; 5; 6; 7]).
  reflexivity.
Defined.

(** X4: the encrypt pass spreads a change one byte down and no further: two
    images that differ only at offsets in [[s, e)] encrypt to images that
    differ only at offsets in [[s - 1, e)]. *)
Theorem encrypt_spreads_one_byte_down load seed0 from to a b s e :
  bytes_ok a -> bytes_ok b ->
  window_in_image load from to a ->
  len a = len b ->
  (forall i, 0 <= i -> i < s \/ e <= i -> byte_at a i = byte_at b i) ->
  exists a' b',
    encrypt load seed0 from to a = Ok a'
    /\ encrypt load seed0 from to b = Ok b'
    /\ (forall i, 0 <= i -> i < s - 1 \/ e <= i ->
          byte_at a' i = byte_at b' i).
Proof.
  intros Hoka Hokb Hwin Hlen Hsame.
  assert (Hwinb : window_in_image load from to b).
  { unfold window_in_image in *. by rewrite <- Hlen. }
  destruct (encrypt_pass load seed0 from to a Hoka Hwin)
    as (a' & Hruna & _ & _ & Houta & Hina).
  destruct (encrypt_pass load seed0 from to b Hokb Hwinb)
    as (b' & Hrunb & _ & _ & Houtb & Hinb).
  exists a', b'. split; [done |]. split; [done |].
  intros i Hi Hrange. destruct Hwin as (Hlo & Hft & Hhi).
  destruct (decide (from - load <= i <= to - load)) as [Hw | Hw].
  - replace i with ((i + load) - load) by lia.
    rewrite Hina, Hinb by lia.
    replace (i + load - load) with i by lia.
    replace (i + load + 1 - load) with (i + 1) by lia.
    rewrite (Hsame i) by lia.
    destruct (Z.eqb_spec (i + load) to); [done |].
    by rewrite (Hsame (i + 1)) by lia.
  - rewrite Houta, Houtb by lia. apply Hsame; lia.
Qed.

Lemma encrypt_spreads_one_byte_down_example :
  exists a' b',
    encrypt 10 0x49 12 16 [1; 2; 3; 4; 5; 6; 7] = Ok a'
    /\ encrypt 10 0x49 12 16 [1; 2; 3; 4; 99; 6; 7] = Ok b'
    /\ byte_at a' 2 = byte_at b' 2
    /\ byte_at a' 5 = byte_at b' 5.
Proof.
  destruct (encrypt_spreads_one_byte_down 10 0x49 12 16
              [1; 2; 3; 4; 5; 6; 7] [1; 2; 3; 4; 99; 6; 7] 4 5)
    as (a' & b' & Ha & Hb & Hsame).
  - repeat constructor; lia.
  - repeat constructor; lia.
  - unfold window_in_image, len. simpl. lia.
  - reflexivity.
  - intros i Hi Hrange.
    assert (Hcases : i = 0 \/ i = 1 \/ i = 2 \/ i = 3 \/ 5 <= i) by lia.
    destruct Hcases as [-> | [-> | [-> | [-> | Hge]]]]; try reflexivity.
    unfold byte_at.
    destruct (Z.to_nat i) as [| [| [| [| [| k]]]]] eqn:Hk; try lia;
      reflexivity.
  - exists a', b'. split; [exact Ha |]. split; [exact Hb |].
    split; apply Hsame; lia.
Defined.

(** X5: a decrypted byte depends only on the bytes at and above its own
    offset: two images that agree from offset [e] upwards decrypt to images
    that agree from offset [e] upwards. *)
Theorem decrypt_reads_upwards load seed0 from to a b e :
  bytes_ok a -> bytes_ok b ->
  window_in_image load from to a ->
  len a = len b ->
  0 <= e ->
  (forall i, e <= i -> byte_at a i = byte_at b i) ->
  exists a' b',
    decrypt load seed0 from to a = Ok a'
    /\ decrypt load seed0 from to b = Ok b'
    /\ (forall i, e <= i -> byte_at a' i = byte_at b' i).
Proof.
  intros Hoka Hokb Hwin Hlen He Hsame.
  assert (Hwinb : window_in_image load from to b).
  { unfold window_in_image in *. by rewrite <- Hlen. }
  destruct (decrypt_pass load seed0 from to a Hoka Hwin)
    as (a' & Hruna & _ & _ & Houta & Hina).
  destruct (decrypt_pass load seed0 from to b Hokb Hwinb)
    as (b' & Hrunb & _ & _ & Houtb & Hinb).
  exists a', b'. split; [done |]. split; [done |].
  destruct Hwin as (Hlo & Hft & Hhi).
  (* from the top of the window downwards, as far as [e] *)
  assert (Hchain : forall (m : nat),
            Z.of_nat m <= to - from -> e <= to - load - Z.of_nat m ->
            byte_at a' (to - Z.of_nat m - load)
            = byte_at b' (to - Z.of_nat m - load)).
  { induction m as [| m IH]; intros Hm Hem.
    - replace (to - Z.of_nat 0) with to by lia.
      rewrite Hina, Hinb by lia. rewrite Z.eqb_refl.
      by rewrite (Hsame (to - load)) by lia.
    - rewrite Hina, Hinb by lia.
      destruct (Z.eqb_spec (to - Z.of_nat (S m)) to) as [Heq | _]; [lia |].
      replace (to - Z.of_nat (S m) + 1 - load)
        with (to - Z.of_nat m - load) by lia.
      rewrite IH by lia.
      by rewrite (Hsame (to - Z.of_nat (S m) - load)) by lia. }
  intros i Hi.
  destruct (decide (from - load <= i <= to - load)) as [Hw | Hw].
  - specialize (Hchain (Z.to_nat (to - load - i))).
    replace (to - Z.of_nat (Z.to_nat (to - load - i)) - load) with i
      in Hchain by lia.
    apply Hchain; lia.
  - rewrite Houta, Houtb by lia. by apply Hsame.
Qed.

Lemma decrypt_reads_upwards_example :
  exists a' b',
    decrypt 10 0x49 12 16 [1; 2; 3; 4; 5; 6; 7] = Ok a'
    /\ decrypt 10 0x49 12 16 [1; 2; 99; 4; 5; 6; 7] = Ok b'
    /\ byte_at a' 3 = byte_at b' 3
    /\ byte_at a' 6 = byte_at b' 6.
Proof.
  destruct (decrypt_reads_upwards 10 0x49 12 16
              [1; 2; 3; 4; 5; 6; 7] [1; 2; 99; 4; 5; 6; 7] 3)
    as (a' & b' & Ha & Hb & Hsame).
  - repeat constructor; lia.
  - repeat constructor; lia.
  - unfold window_in_image, len. simpl. lia.
  - reflexivity.
  - lia.
  - intros i Hi. unfold byte_at.
    destruct (Z.to_nat i) as [| [| [| k]]] eqn:Hk; try lia; reflexivity.
  - exists a', b'. split; [exact Ha |]. split; [exact Hb |].
    split; apply Hsame; lia.
Defined.

(** X6: neither pass loses information: two images of bytes that a pass
    maps to the same image are the same image. *)
Theorem codec_passes_are_injective load seed0 from to a b :
  bytes_ok a -> bytes_ok b ->
  window_in_image load from to a ->
  window_in_image load from to b ->
  (forall c, encrypt load seed0 from to a = Ok c ->
             encrypt load seed0 from to b = Ok c -> a = b)
  /\ (forall p, decrypt load seed0 from to a = Ok p ->
                decrypt load seed0 from to b = Ok p -> a = b).
Proof.
  intros Hoka Hokb Hwina Hwinb. split.
  - intros c Ha Hb.
    pose proof (encrypt_then_decrypt load seed0 from to a Hoka Hwina) as Hra.
    pose proof (encrypt_then_decrypt load seed0 from to b Hokb Hwinb) as Hrb.
    rewrite Ha in Hra. rewrite Hb in Hrb. cbn [bind] in Hra, Hrb. congruence.
  - intros p Ha Hb.
    pose proof (decrypt_then_encrypt load seed0 from to a Hoka Hwina) as Hra.
    pose proof (decrypt_then_encrypt load seed0 from to b Hokb Hwinb) as Hrb.
    rewrite Ha in Hra. rewrite Hb in Hrb. cbn [bind] in Hra, Hrb. congruence.
Qed.

Lemma codec_passes_are_injective_example :
  bytes_ok [1; 2; 7; 9; 11; 79; 7]
  /\ window_in_image 10 12 15 [1; 2; 7; 9; 11; 79; 7]
  /\ forall b,
       bytes_ok b -> window_in_image 10 12 15 b ->
       decrypt 10 0x49 12 15 b = Ok [1; 2; 3; 4; 5; 6; 7] ->
       [1; 2; 7; 9; 11; 79; 7] = b.
Proof.
  assert (Hok : bytes_ok [1; 2; 7; 9; 11; 79; 7]).
  { repeat constructor; lia. }
  assert (Hwin : window_in_image 10 12 15 [1; 2; 7; 9; 11; 79; 7]).
  { unfold window_in_image, len. simpl. lia. }
  split; [exact Hok |]. split; [exact Hwin |].
  intros b Hokb Hwinb Hb.
  apply (proj2 (codec_passes_are_injective 10 0x49 12 15
                  [1; 2; 7; 9; 11; 79; 7] b Hok Hokb Hwin Hwinb)
           [1; 2; 3; 4; 5; 6; 7]); [reflexivity | exact Hb].
Defined.

(** * Further properties of the patch primitives *)

Section PrimitiveEdges.

Variable load : Z.
Implicit Types (data payload : list Z).

(** An empty payload leaves the image as it is, wherever it is put. *)
Lemma setslice_empty data start :
  setslice data start (start + len []) [] = data.
Proof.
  unfold setslice. change (len []) with 0. rewrite Z.add_0_r, Z.max_id.
  apply take_drop.
Qed.

Lemma not_bytes_ok_of_forallb payload :
  forallb is_byte payload = false -> ~ bytes_ok payload.
Proof.
  intros Hall Hok. apply of_ints_bytes in Hok. unfold of_ints in Hok.
  by rewrite Hall in Hok.
Qed.

(** A second payload of the same length at the same start replaces the
    first one. *)
Lemma setslice_twice data p q start :
  0 <= start <= len data -> len p = len q ->
  setslice (setslice data start (start + len p) p) start (start + len q) q
  = setslice data start (start + len q) q.
Proof.
  intros Hstart Hpq. pose proof (len_nonneg p) as Hp.
  destruct (setslice_inside data p start Hstart)
    as (Hlen1 & Hbelow1 & _ & Habove1).
  destruct (setslice_inside data q start Hstart)
    as (Hlen & Hbelow & Hin & Habove).
  set (d1 := setslice data start (start + len p) p) in *.
  assert (Hstart1 : 0 <= start <= len d1) by lia.
  destruct (setslice_inside d1 q start Hstart1)
    as (Hlen2 & Hbelow2 & Hin2 & Habove2).
  apply list_eq. intros k.
  rewrite <- (Nat2Z.id k).
  destruct (decide (Z.of_nat k < start)) as [Hlt | Hge].
  - rewrite Hbelow2, Hbelow, Hbelow1 by lia. done.
  - destruct (decide (Z.of_nat k < start + len q)) as [Hlt' | Hge'].
    + rewrite Hin2, Hin by lia. done.
    + rewrite Habove2, Habove, Habove1 by lia. done.
Qed.

End PrimitiveEdges.

(** X7: an insert of nothing changes nothing, at any address, inside the
    image or not: an empty list of bytes, a filler count of zero or less
    that fits an index-sized integer, an empty file.  A filler count below
    the index-sized integers raises [OverflowError] instead. *)
Theorem empty_insert_changes_nothing (fs : files) load data addr filename
    count :
  insert_bytes load data addr [] = Ok data
  /\ (- index_max - 1 <= count <= 0 ->
      insert_nops load data addr count = Ok data)
  /\ (count < - index_max - 1 ->
      insert_nops load data addr count = Raise OverflowError)
  /\ (fs !! filename = Some [] ->
      insert_binary_file fs load data addr filename = Ok data).
Proof.
  split; [| split; [| split]].
  - rewrite insert_bytes_ok by constructor. by rewrite setslice_empty.
  - intros Hcount. rewrite insert_nops_ok.
    + replace (Z.to_nat count) with 0%nat by lia.
      by rewrite setslice_empty.
    + apply filler_count_repeats. unfold filler_count_ok, address_space.
      lia.
  - intros Hcount. apply insert_nops_overflow. by left.
  - intros Hfile. rewrite (insert_binary_file_ok _ _ _ _ _ _ Hfile).
    by rewrite setslice_empty.
Qed.

Lemma empty_insert_changes_nothing_example :
  insert_nops load_address [1; 2; 3] 0x69F0 (-4) = Ok [1; 2; 3]
  /\ insert_nops load_address [1; 2; 3] 0x69F0 (- 2 ^ 63 - 1)
     = Raise OverflowError
  /\ insert_binary_file {["empty.bin"%string := []]} load_address [1; 2; 3]
       0x7000 "empty.bin" = Ok [1; 2; 3].
Proof.
  destruct (empty_insert_changes_nothing {["empty.bin"%string := []]}
              load_address [1; 2; 3] 0x69F0 "empty.bin" (-4))
    as (_ & Hnops & _).
  destruct (empty_insert_changes_nothing {["empty.bin"%string := []]}
              load_address [1; 2; 3] 0x69F0 "empty.bin" (- 2 ^ 63 - 1))
    as (_ & _ & Hover & _).
  destruct (empty_insert_changes_nothing {["empty.bin"%string := []]}
              load_address [1; 2; 3] 0x7000 "empty.bin" 0)
    as (_ & _ & _ & Hfile).
  split; [| split].
  - apply Hnops. vm_compute. split; discriminate.
  - apply Hover. vm_compute. reflexivity.
  - apply Hfile. apply lookup_singleton_eq.
Defined.

(** X8: what the inserts raise.  An insert of bytes raises [ValueError]
    when its list holds a value outside [range(256)] and nothing otherwise;
    an insert of a file raises [FileNotFoundError] when the file is missing
    and nothing otherwise; an insert of filler raises [OverflowError]
    exactly when its count does not fit an index-sized integer, raises
    nothing for a count within [filler_count_ok], and raises nothing but
    [OverflowError] and, for a count above the address space,
    [MemoryError].  None of them raises on account of the address. *)
Theorem insert_exceptions (fs : files) load data addr payload filename
    count :
  (insert_bytes load data addr payload = Raise ValueError
   <-> ~ bytes_ok payload)
  /\ (is_ok (insert_bytes load data addr payload) = true
      <-> bytes_ok payload)
  /\ (insert_binary_file fs load data addr filename = Raise FileNotFoundError
      <-> fs !! filename = None)
  /\ (is_ok (insert_binary_file fs load data addr filename) = true
      <-> is_Some (fs !! filename))
  /\ (insert_nops load data addr count = Raise OverflowError
      <-> count < - index_max - 1 \/ index_max < count)
  /\ (filler_count_ok count ->
      is_ok (insert_nops load data addr count) = true)
  /\ (forall e,
        insert_nops load data addr count = Raise e ->
        e = OverflowError \/ (e = MemoryError /\ address_space < count))
  /\ (forall addr',
        is_ok (insert_bytes load data addr' payload)
        = is_ok (insert_bytes load data addr payload)
        /\ is_ok (insert_binary_file fs load data addr' filename)
           = is_ok (insert_binary_file fs load data addr filename)
        /\ is_ok (insert_nops load data addr' count)
           = is_ok (insert_nops load data addr count)).
Proof.
  assert (Hbytes : forall l,
            (insert_bytes load data addr l = Raise ValueError
             /\ ~ bytes_ok l)
            \/ (is_ok (insert_bytes load data addr l) = true
                /\ bytes_ok l)).
  { intros l. unfold insert_bytes, of_ints.
    destruct (forallb is_byte l) eqn:Hall; cbn [bind].
    - right. split; [done | by apply bytes_ok_of_forallb].
    - left. split; [done | by apply not_bytes_ok_of_forallb]. }
  assert (Hnops : forall a,
            (repeat_count_ok count
             /\ is_ok (insert_nops load data a count) = true)
            \/ ((count < - index_max - 1 \/ index_max < count)
                /\ insert_nops load data a count = Raise OverflowError)
            \/ (index_max / 8 < count <= index_max
                /\ insert_nops load data a count = Raise MemoryError)).
  { intros a.
    destruct (list_repeat_cases 0xEA count)
      as [[Hcount _] | [[Hcount Hraise] | [Hcount Hraise]]].
    - left. split; [exact Hcount |].
      by rewrite (insert_nops_ok _ _ _ _ Hcount).
    - right. left. split; [exact Hcount |].
      unfold insert_nops. by rewrite Hraise.
    - right. right. split; [exact Hcount |].
      unfold insert_nops. by rewrite Hraise. }
  assert (Hspace : 0 <= address_space <= index_max / 8).
  { vm_compute. split; discriminate. }
  assert (Hmax : index_max / 8 <= index_max) by (by vm_compute).
  split; [| split; [| split; [| split; [| split; [| split; [| split]]]]]].
  - destruct (Hbytes payload) as [[-> Hno] | [Hyes Hok]]; [done |].
    split; [| done]. intros Hraise. rewrite Hraise in Hyes. done.
  - destruct (Hbytes payload) as [[-> Hno] | [-> Hok]]; [| done].
    split; [done | intros Hok; by destruct Hno].
  - unfold insert_binary_file, read_file.
    destruct (fs !! filename); cbn [bind]; split; done.
  - unfold insert_binary_file, read_file.
    destruct (fs !! filename) as [content |]; cbn [bind]; split;
      done.
  - destruct (Hnops addr) as [[Hcount Hyes] | [[Hcount ->] | [Hcount ->]]].
    + split.
      * intros Hraise. rewrite Hraise in Hyes. done.
      * unfold repeat_count_ok in Hcount. lia.
    + done.
    + split; [done | lia].
  - intros Hcount. apply filler_count_repeats in Hcount.
    by rewrite (insert_nops_ok _ _ _ _ Hcount).
  - intros e Hraise.
    destruct (Hnops addr) as [[_ Hyes] | [[_ Hover] | [Hcount Hmem]]].
    + rewrite Hraise in Hyes. done.
    + rewrite Hover in Hraise. left. by injection Hraise.
    + rewrite Hmem in Hraise. right. split; [by injection Hraise | lia].
  - intros addr'. split; [| split].
    + destruct (Hbytes payload) as [[Hraise _] | [Hyes _]].
      * unfold insert_bytes in *. by destruct (of_ints payload).
      * unfold insert_bytes in *. by destruct (of_ints payload).
    + unfold insert_binary_file, read_file. by destruct (fs !! filename).
    + destruct (Hnops addr) as [[Hc ->] | [[Hc ->] | [Hc ->]]];
        destruct (Hnops addr') as [[Hc' ->] | [[Hc' ->] | [Hc' ->]]];
        first [done | exfalso; unfold repeat_count_ok in *; lia].
Qed.

Lemma insert_exceptions_example :
  insert_bytes load_address [1; 2; 3] 0x6A00 [9; 256] = Raise ValueError
  /\ insert_binary_file ∅ load_address [1; 2; 3] 0x6A00 "shppt.bin"
     = Raise FileNotFoundError
  /\ insert_nops load_address [1; 2; 3] 0x6A00 (2 ^ 70)
     = Raise OverflowError
  /\ is_ok (insert_nops load_address [1; 2; 3] 0x6A00 28) = true.
Proof.
  destruct (insert_exceptions ∅ load_address [1; 2; 3] 0x6A00 [9; 256]
              "shppt.bin" 0) as (Hvalue & _ & Hfile & _).
  destruct (insert_exceptions ∅ load_address [1; 2; 3] 0x6A00 []
              "shppt.bin" (2 ^ 70)) as (_ & _ & _ & _ & Hover & _).
  destruct (insert_exceptions ∅ load_address [1; 2; 3] 0x6A00 []
              "shppt.bin" 28) as (_ & _ & _ & _ & _ & Hruns & _).
  split; [| split; [| split]].
  - apply Hvalue. intros Hok. apply Forall_cons in Hok as [_ Hok].
    apply Forall_cons in Hok as [H256 _]. lia.
  - apply Hfile. apply lookup_empty.
  - apply Hover. right. vm_compute. reflexivity.
  - apply Hruns. vm_compute. split; discriminate.
Defined.

(** X9: a later insert wins.  For a start offset in the image (or at its
    end), an insert of [q] over an earlier insert of as many bytes at the
    same address gives what the insert of [q] alone gives; in particular
    doing an insert twice is doing it once. *)
Theorem later_insert_wins load data addr p q :
  bytes_ok p -> bytes_ok q ->
  0 <= get_offset load addr <= len data ->
  len p = len q ->
  (do d <- insert_bytes load data addr p ;; insert_bytes load d addr q)
  = insert_bytes load data addr q
  /\ (do d <- insert_bytes load data addr q ;; insert_bytes load d addr q)
     = insert_bytes load data addr q.
Proof.
  intros Hp Hq Hstart Hpq.
  rewrite !(insert_bytes_ok _ _ _ _ Hp), !(insert_bytes_ok _ _ _ _ Hq).
  cbn [bind].
  rewrite !(insert_bytes_ok _ _ _ _ Hq).
  split; f_equal; by apply setslice_twice.
Qed.

Lemma later_insert_wins_example :
  (do d <- insert_bytes load_address [1; 2; 3; 4] 0x6A00 [7; 7; 7] ;;
   insert_bytes load_address d 0x6A00 [9; 8; 6])
  = Ok [1; 2; 9; 8; 6].
Proof.
  assert (Hp : bytes_ok [7; 7; 7]) by (repeat constructor; lia).
  assert (Hq : bytes_ok [9; 8; 6]) by (repeat constructor; lia).
  destruct (later_insert_wins load_address [1; 2; 3; 4] 0x6A00
              [7; 7; 7] [9; 8; 6] Hp Hq) as (Hwins & _).
  - vm_compute. split; discriminate.
  - reflexivity.
  - rewrite Hwins. reflexivity.
Defined.

(** * Further properties of the protection patch *)

Section ProtectionEdges.

Implicit Types (data : list Z).

Lemma setitem_past_end data i v :
  0 <= i -> len data <= i -> setitem data i v = Raise IndexError.
Proof.
  intros Hi Hlen. unfold setitem, index_adjust, index_ok.
  destruct (Z.ltb_spec i 0); [lia |].
  destruct (Z.leb_spec 0 i); [| lia].
  destruct (Z.ltb_spec i (len data)); [lia | done].
Qed.

(** The highest offset a platform writes. *)
Lemma pal_patch_on_short_image data :
  len data <= 0x2C -> patch_gma1 "pal" data = Raise IndexError.
Proof.
  intros Hlen. rewrite patch_gma1_pal.
  destruct (setitem_byte_cases data 0x25 0xEA ltac:(lia))
    as [-> | (d1 & -> & Hlen1)]; [done |]. cbn [bind].
  destruct (setitem_byte_cases d1 0x26 0xEA ltac:(lia))
    as [-> | (d2 & -> & Hlen2)]; [done |]. cbn [bind].
  destruct (setitem_byte_cases d2 0x27 0xEA ltac:(lia))
    as [-> | (d3 & -> & Hlen3)]; [done |]. cbn [bind].
  apply setitem_past_end; lia.
Qed.

Lemma ntsc_patch_on_short_image platform data :
  platform <> "pal"%string ->
  len data <= 0x16 -> patch_gma1 platform data = Raise IndexError.
Proof.
  intros Hne Hlen. rewrite (patch_gma1_other _ _ Hne).
  destruct (setitem_byte_cases data 0x14 0xEA ltac:(lia))
    as [-> | (d1 & -> & Hlen1)]; [done |]. cbn [bind].
  rewrite setitem_past_end by lia. done.
Qed.

Lemma patch_gma1_cases platform data :
  (top_offset platform < len data
   /\ exists d, patch_gma1 platform data = Ok d /\ len d = len data)
  \/ (len data <= top_offset platform
      /\ patch_gma1 platform data = Raise IndexError).
Proof.
  unfold top_offset.
  destruct (String.eqb_spec platform "pal") as [-> | Hne].
  - destruct (decide (0x2C < len data)) as [Hlong | Hshort].
    + left. split; [done |]. rewrite (pal_overwrite_set data Hlong).
      eexists. split; [done |]. by rewrite !len_insert.
    + right. split; [lia |]. apply pal_patch_on_short_image. lia.
  - destruct (decide (0x16 < len data)) as [Hlong | Hshort].
    + left. split; [done |].
      rewrite (ntsc_overwrite_set platform data Hne Hlong).
      eexists. split; [done |]. by rewrite !len_insert.
    + right. split; [lia |]. apply ntsc_patch_on_short_image; [done | lia].
Qed.

End ProtectionEdges.

(** X10: the protection patch succeeds exactly when the image holds the
    highest offset its platform writes (0x2C for [pal], 0x16 for any other
    platform); on a shorter image it raises [IndexError], and it never
    raises anything else. *)
Theorem patch_gma1_needs_its_offsets platform data :
  (is_ok (patch_gma1 platform data) = true
   <-> top_offset platform < len data)
  /\ (patch_gma1 platform data = Raise IndexError
      <-> len data <= top_offset platform)
  /\ (forall d, patch_gma1 platform data = Ok d -> len d = len data).
Proof.
  destruct (patch_gma1_cases platform data)
    as [(Hlong & d & Hrun & Hlen) | (Hshort & Hrun)]; rewrite Hrun.
  - split; [| split].
    + split; [done | reflexivity].
    + split; [done | lia].
    + intros d' [= <-]. exact Hlen.
  - split; [| split].
    + split; [done | lia].
    + split; [done | reflexivity].
    + done.
Qed.

Lemma patch_gma1_needs_its_offsets_example :
  patch_gma1 "pal" (replicate 44 7) = Raise IndexError
  /\ is_ok (patch_gma1 "ntsc" (replicate 44 7)) = true.
Proof.
  destruct (patch_gma1_needs_its_offsets "pal" (replicate 44 7))
    as (_ & Hpal & _).
  destruct (patch_gma1_needs_its_offsets "ntsc" (replicate 44 7))
    as (Hntsc & _ & _).
  split.
  - apply Hpal. vm_compute. discriminate.
  - apply Hntsc. vm_compute. reflexivity.
Defined.

(** X11: the protection patch is idempotent: patching a patched image
    again gives the patched image, for every platform and every image. *)
Theorem patch_gma1_twice platform data :
  (do d <- patch_gma1 platform data ;; patch_gma1 platform d)
  = patch_gma1 platform data.
Proof.
  destruct (patch_gma1_cases platform data)
    as [(Hlong & d & Hrun & Hlen) | (Hshort & Hrun)];
    [| by rewrite Hrun].
  rewrite Hrun. cbn [bind]. unfold top_offset in Hlong.
  destruct (String.eqb_spec platform "pal") as [-> | Hne].
  - rewrite (pal_overwrite_set data Hlong) in Hrun.
    rewrite (pal_overwrite_set d) by lia.
    injection Hrun as <-. f_equal.
    apply list_eq. intros k.
    rewrite !list_lookup_insert, !length_insert.
    repeat case_decide; try done; exfalso; lia.
  - rewrite (ntsc_overwrite_set platform data Hne Hlong) in Hrun.
    rewrite (ntsc_overwrite_set platform d Hne) by lia.
    injection Hrun as <-. f_equal.
    apply list_eq. intros k.
    rewrite !list_lookup_insert, !length_insert.
    repeat case_decide; try done; exfalso; lia.
Qed.

(** * Further properties of the run *)

Section RunFacts.

Implicit Types (fs : files) (data : list Z).

(** The steps of a run that ends well. *)
Lemma main_inv argv fs fs' :
  main argv fs = Ok fs' ->
  exists gma6 d1 d2 d3 d4 gma1 patched,
    fs !! "gma6"%string = Some gma6
    /\ decrypt load_address seed scramble_from scramble_to gma6 = Ok d1
    /\ modify_flicker_free (write_file fs "gma6.decrypted" d1) d1 = Ok d2
    /\ modify_editor (write_file fs "gma6.decrypted" d1) d2 = Ok d3
    /\ encrypt load_address seed scramble_from scramble_to d3 = Ok d4
    /\ fs !! "gma1"%string = Some gma1
    /\ patch_gma1 (platform_of_argv argv) gma1 = Ok patched
    /\ fs' = <["gma1.modified"%string := patched]>
               (<["gma6.encrypted"%string := d4]>
                  (<["gma6.modified"%string := d3]>
                     (<["gma6.decrypted"%string := d1]> fs))).
Proof.
  unfold main. intros Hrun.
  apply bind_ok_inv in Hrun as (gma6 & Hgma6 & Hrun).
  apply bind_ok_inv in Hrun as (d1 & Hd1 & Hrun).
  apply bind_ok_inv in Hrun as (d2 & Hd2 & Hrun).
  apply bind_ok_inv in Hrun as (d3 & Hd3 & Hrun).
  apply bind_ok_inv in Hrun as (d4 & Hd4 & Hrun).
  apply bind_ok_inv in Hrun as (gma1 & Hgma1 & Hrun).
  apply bind_ok_inv in Hrun as (patched & Hpatch & Hrun).
  exists gma6, d1, d2, d3, d4, gma1, patched.
  unfold read_file in Hgma6.
  destruct (fs !! "gma6"%string) as [c |] eqn:Hc; [| done].
  injection Hgma6 as ->.
  unfold read_file, write_file in Hgma1.
  rewrite !lookup_insert_ne in Hgma1 by done.
  destruct (fs !! "gma1"%string) as [c |] eqn:Hc1; [| done].
  injection Hgma1 as ->.
  repeat split; try done.
  unfold write_file in Hrun. by injection Hrun as <-.
Qed.

(** A decrypt pass that ends well had the whole window in the image. *)
Lemma decrypt_ok_window load seed0 from to data d :
  load <= from -> from <= to ->
  decrypt load seed0 from to data = Ok d ->
  window_in_image load from to data.
Proof.
  intros Hlo Hft Hrun. unfold window_in_image.
  split; [done |]. split; [done |].
  destruct (decide (to - load < len data)) as [Hin | Hout]; [done |].
  rewrite decrypt_past_end in Hrun by lia. done.
Qed.

Lemma script_window_length data :
  window_in_image load_address scramble_from scramble_to data
  <-> 0x62D6 + 1 + 2 <= len data.
Proof.
  unfold window_in_image, load_address, scramble_from, scramble_to. lia.
Qed.

(** The files a patch sequence that ends well has read. *)
Lemma modify_flicker_free_reads fs data d :
  modify_flicker_free fs data = Ok d ->
  is_Some (fs !! "shppt.bin"%string)
  /\ is_Some (fs !! "ll78.bin"%string)
  /\ is_Some (fs !! "ll155.bin"%string)
  /\ is_Some (fs !! "extra.bin"%string).
Proof.
  unfold modify_flicker_free. cbv zeta. intros Hrun.
  apply bind_ok_inv in Hrun as (d1 & Hshppt & Hrun).
  do 16 (apply bind_ok_inv in Hrun as (? & _ & Hrun)).
  apply bind_ok_inv in Hrun as (d18 & Hll78 & Hrun).
  apply bind_ok_inv in Hrun as (d19 & Hll155 & Hrun).
  apply bind_ok_inv in Hrun as (extra & Hextra & Hrun).
  apply insert_binary_file_inv in Hshppt as (c1 & -> & _).
  apply insert_binary_file_inv in Hll78 as (c2 & -> & _).
  apply insert_binary_file_inv in Hll155 as (c3 & -> & _).
  unfold read_file in Hextra.
  destruct (fs !! "extra.bin"%string) as [c4 |]; [| done].
  repeat split; by eexists.
Qed.

Lemma modify_editor_reads fs data d :
  modify_editor fs data = Ok d -> is_Some (fs !! "editor.bin"%string).
Proof.
  unfold modify_editor. cbv zeta. intros Hrun.
  do 5 (apply bind_ok_inv in Hrun as (? & _ & Hrun)).
  apply insert_binary_file_inv in Hrun as (c & -> & _). by eexists.
Qed.

Lemma patch_files_present fs :
  is_Some (fs !! "shppt.bin"%string) ->
  is_Some (fs !! "ll78.bin"%string) ->
  is_Some (fs !! "ll155.bin"%string) ->
  is_Some (fs !! "extra.bin"%string) ->
  is_Some (fs !! "editor.bin"%string) ->
  forall name, name ∈ patch_files -> is_Some (fs !! name).
Proof.
  intros H1 H2 H3 H4 H5 name Hname. unfold patch_files in Hname.
  apply list_elem_of_In in Hname. simpl in Hname.
  destruct Hname as [<- | [<- | [<- | [<- | [<- | []]]]]]; done.
Qed.

Lemma patch_files_bytes fs :
  files_are_bytes fs ->
  (forall name, name ∈ patch_files -> is_Some (fs !! name)) ->
  forall name, name ∈ patch_files ->
    exists content, fs !! name = Some content /\ bytes_ok content.
Proof.
  intros Hbytes Hpresent name Hname.
  destruct (Hpresent name Hname) as [content Hcontent].
  exists content. split; [done |]. by apply (Hbytes name).
Qed.

Lemma not_a_patch_file name :
  name ∈ output_files -> name ∉ patch_files.
Proof.
  unfold output_files, patch_files. intros Hout Hin.
  apply list_elem_of_In in Hout, Hin. simpl in Hout, Hin.
  destruct Hout as [<- | [<- | [<- | [<- | []]]]];
    intuition discriminate.
Qed.

(** With [gma6] and the assembled routines ready, the run gets as far as
    the protection image: what is left of it is the patch of [gma1]. *)
Lemma main_reaches_gma1 argv fs gma6 :
  fs !! "gma6"%string = Some gma6 ->
  image_ok (0x62D6 + 1 + 2) gma6 ->
  (forall name, name ∈ patch_files ->
     exists content, fs !! name = Some content /\ bytes_ok content) ->
  exists d1 d3 d4,
    decrypt load_address seed scramble_from scramble_to gma6 = Ok d1
    /\ image_ok (0x62D6 + 1 + 2) d3
    /\ encrypt load_address seed scramble_from scramble_to d3 = Ok d4
    /\ main argv fs
       = (do gma1 <- read_file fs "gma1" ;;
          do patched <- patch_gma1 (platform_of_argv argv) gma1 ;;
          Ok (<["gma1.modified"%string := patched]>
                (<["gma6.encrypted"%string := d4]>
                   (<["gma6.modified"%string := d3]>
                      (<["gma6.decrypted"%string := d1]> fs))))).
Proof.
  intros Hgma6 [Hok6 Hlen6] Hfiles.
  unfold main. unfold read_file at 1. rewrite Hgma6. cbn [bind].
  change (extend [] gma6) with gma6.
  destruct (decrypt_pass load_address seed scramble_from scramble_to gma6 Hok6)
    as (d1 & Hd1 & Hlen & Hok1 & _).
  { apply script_window_in_image_ge. exact Hlen6. }
  rewrite Hd1. cbn [bind].
  assert (Himg1 : image_ok (0x62D6 + 1 + 2) d1) by (split; [done | lia]).
  destruct (modify_flicker_free_runs (0x62D6 + 1 + 2)
              (write_file fs "gma6.decrypted" d1) d1)
    as (d2 & -> & Hd2); [by vm_compute | | done |].
  { apply patch_files_after_write; [| done].
    apply not_a_patch_file. unfold output_files.
    apply list_elem_of_In. simpl. tauto. }
  cbn [bind].
  destruct (modify_editor_runs (0x62D6 + 1 + 2)
              (write_file fs "gma6.decrypted" d1) d2)
    as (d3 & -> & Hd3); [| done |].
  { apply patch_files_after_write; [| done].
    apply not_a_patch_file. unfold output_files.
    apply list_elem_of_In. simpl. tauto. }
  cbn [bind]. destruct Hd3 as [Hok3 Hlen3].
  destruct (encrypt_pass load_address seed scramble_from scramble_to d3 Hok3)
    as (d4 & Hd4 & _).
  { apply script_window_in_image_ge. exact Hlen3. }
  rewrite Hd4. cbn [bind].
  exists d1, d3, d4. split; [done |]. split; [done |]. split; [done |].
  unfold read_file, write_file.
  rewrite !lookup_insert_ne by done.
  destruct (fs !! "gma1"%string) as [gma1 |]; [| done]. cbn [bind].
  done.
Qed.

End RunFacts.

Section RunCheckpoints.

Implicit Types (fs : files) (data : list Z).

Lemma example_directory_bytes : files_are_bytes example_directory.
Proof.
  intros name content Hfile. unfold example_directory in Hfile.
  apply lookup_insert_Some in Hfile as [[_ <-] | [_ Hfile]].
  { apply Forall_replicate. lia. }
  apply lookup_insert_Some in Hfile as [[_ <-] | [_ Hfile]].
  { apply Forall_replicate. lia. }
  apply lookup_insert_Some in Hfile as [[_ <-] | [_ Hfile]].
  { apply Forall_cons. split; [lia |]. apply Forall_cons. split; [lia |].
    apply Forall_nil. exact I. }
  apply lookup_insert_Some in Hfile as [[_ <-] | [_ Hfile]].
  { apply Forall_cons. split; [lia |]. apply Forall_nil. exact I. }
  apply lookup_insert_Some in Hfile as [[_ <-] | [_ Hfile]].
  { apply Forall_cons. split; [lia |]. apply Forall_nil. exact I. }
  apply lookup_insert_Some in Hfile as [[_ <-] | [_ Hfile]].
  { apply Forall_cons. split; [lia |]. apply Forall_cons. split; [lia |].
    apply Forall_cons. split; [lia |]. apply Forall_nil. exact I. }
  apply lookup_insert_Some in Hfile as [[_ <-] | [_ Hfile]].
  { apply Forall_cons. split; [lia |]. apply Forall_nil. exact I. }
  by rewrite lookup_empty in Hfile.
Qed.

Lemma example_directory_ready : inputs_ready example_directory.
Proof.
  split; [| split].
  - eexists. split; [apply lookup_insert_eq |]. split.
    + apply Forall_replicate. lia.
    + unfold len. rewrite length_replicate. lia.
  - intros name Hname. unfold patch_files in Hname.
    apply list_elem_of_In in Hname. simpl in Hname.
    unfold example_directory.
    destruct Hname as [<- | [<- | [<- | [<- | [<- | []]]]]];
      eexists; (split;
        [repeat (rewrite lookup_insert_ne by discriminate);
         apply lookup_insert_eq
        | repeat constructor; lia]).
  - eexists. split.
    + unfold example_directory. rewrite lookup_insert_ne by discriminate.
      apply lookup_insert_eq.
    + reflexivity.
Qed.

(** What a run that ends well on files of bytes has gone through. *)
Lemma run_checkpoints argv fs fs' :
  files_are_bytes fs ->
  main argv fs = Ok fs' ->
  exists gma6 d1 d3 d4 gma1 patched,
    fs !! "gma6"%string = Some gma6
    /\ image_ok (0x62D6 + 1 + 2) gma6
    /\ decrypt load_address seed scramble_from scramble_to gma6 = Ok d1
    /\ image_ok (0x62D6 + 1 + 2) d3
    /\ encrypt load_address seed scramble_from scramble_to d3 = Ok d4
    /\ fs !! "gma1"%string = Some gma1
    /\ patch_gma1 (platform_of_argv argv) gma1 = Ok patched
    /\ (forall name, name ∈ patch_files -> is_Some (fs !! name))
    /\ fs' = <["gma1.modified"%string := patched]>
               (<["gma6.encrypted"%string := d4]>
                  (<["gma6.modified"%string := d3]>
                     (<["gma6.decrypted"%string := d1]> fs))).
Proof.
  intros Hbytes Hrun.
  destruct (main_inv argv fs fs' Hrun)
    as (gma6 & e1 & e2 & e3 & e4 & gma1 & patched
        & Hgma6 & He1 & He2 & He3 & _ & Hgma1 & _ & _).
  assert (Himg6 : image_ok (0x62D6 + 1 + 2) gma6).
  { split; [by apply (Hbytes "gma6"%string) |].
    apply script_window_length.
    eapply decrypt_ok_window; [| | exact He1]; vm_compute; discriminate. }
  assert (Hpresent : forall name, name ∈ patch_files -> is_Some (fs !! name)).
  { destruct (modify_flicker_free_reads _ _ _ He2) as (H1 & H2 & H3 & H4).
    pose proof (modify_editor_reads _ _ _ He3) as H5.
    unfold write_file in *.
    rewrite lookup_insert_ne in H1, H2, H3, H4, H5 by done.
    by apply patch_files_present. }
  destruct (main_reaches_gma1 argv fs gma6 Hgma6 Himg6
              (patch_files_bytes fs Hbytes Hpresent))
    as (d1 & d3 & d4 & Hd1 & Himg3 & Hd4 & Hmain).
  rewrite Hmain in Hrun. unfold read_file in Hrun. rewrite Hgma1 in Hrun.
  cbn [bind] in Hrun.
  apply bind_ok_inv in Hrun as (p & Hpatch & Hfs').
  injection Hfs' as <-.
  exists gma6, d1, d3, d4, gma1, p. repeat split; try done.
  - by destruct Himg6.
  - by destruct Himg6.
  - by destruct Himg3.
  - by destruct Himg3.
Qed.

End RunCheckpoints.

(** X12: with files that hold bytes, the run ends well exactly when [gma6]
    is there with the whole scramble window (0x62D6 + 1 bytes after the two
    header bytes), the five assembled routines are there, and [gma1] is
    there and holds the highest offset the platform writes. *)
Theorem run_ends_well_exactly_when argv (fs : files) :
  files_are_bytes fs ->
  (is_ok (main argv fs) = true
   <-> (exists gma6, fs !! "gma6"%string = Some gma6
                     /\ 0x62D6 + 1 + 2 <= len gma6)
       /\ (forall name, name ∈ patch_files -> is_Some (fs !! name))
       /\ (exists gma1, fs !! "gma1"%string = Some gma1
                        /\ top_offset (platform_of_argv argv) < len gma1)).
Proof.
  intros Hbytes. split.
  - destruct (main argv fs) as [fs' |] eqn:Hrun; [| done]. intros _.
    destruct (run_checkpoints argv fs fs' Hbytes Hrun)
      as (gma6 & d1 & d3 & d4 & gma1 & patched
          & Hgma6 & [_ Hlen6] & _ & _ & _ & Hgma1 & Hpatch & Hpresent & _).
    split; [by exists gma6 |]. split; [done |].
    exists gma1. split; [done |].
    destruct (patch_gma1_cases (platform_of_argv argv) gma1)
      as [(Hlong & _) | (_ & Hraise)]; [done |].
    rewrite Hraise in Hpatch. done.
  - intros ((gma6 & Hgma6 & Hlen6) & Hpresent & (gma1 & Hgma1 & Hlen1)).
    assert (Himg6 : image_ok (0x62D6 + 1 + 2) gma6).
    { split; [by apply (Hbytes "gma6"%string) | done]. }
    destruct (main_reaches_gma1 argv fs gma6 Hgma6 Himg6
                (patch_files_bytes fs Hbytes Hpresent))
      as (d1 & d3 & d4 & _ & _ & _ & ->).
    unfold read_file. rewrite Hgma1. cbn [bind].
    destruct (patch_gma1_cases (platform_of_argv argv) gma1)
      as [(_ & p & -> & _) | (Hshort & _)]; [done | lia].
Qed.

Lemma run_ends_well_exactly_when_example :
  files_are_bytes example_directory
  /\ is_ok (main ["elite-modify.py"; "ntsc"]%string example_directory) = true
  /\ is_ok (main ["elite-modify.py"; "ntsc"]%string
              (delete "ll78.bin"%string example_directory)) = false.
Proof.
  pose proof example_directory_bytes as Hbytes.
  destruct example_directory_ready
    as ((gma6 & Hgma6 & _ & Hlen6) & Hfiles & (gma1 & Hgma1 & Hlen1)).
  split; [exact Hbytes |]. split.
  - apply (run_ends_well_exactly_when _ _ Hbytes).
    split; [by exists gma6 |]. split.
    + intros name Hname. destruct (Hfiles name Hname) as (c & -> & _).
      by eexists.
    + exists gma1. split; [done |]. unfold top_offset. simpl. lia.
  - assert (Hbytes' : files_are_bytes
                        (delete "ll78.bin"%string example_directory)).
    { intros name content Hfile.
      apply lookup_delete_Some in Hfile as [_ Hfile].
      by apply (Hbytes name). }
    apply not_true_is_false. intros Hrun.
    apply (run_ends_well_exactly_when _ _ Hbytes') in Hrun
      as (_ & Hpresent & _).
    destruct (Hpresent "ll78.bin"%string) as [c Hc].
    { unfold patch_files. apply list_elem_of_In. simpl. tauto. }
    by rewrite lookup_delete_eq in Hc.
Defined.

(** X13: the checkpoints of a run that ends well on files of bytes fit
    together: [gma6.decrypted] is the decrypted [gma6] and encrypts back to
    [gma6]; [gma6.encrypted] is the encrypted [gma6.modified] and decrypts
    back to [gma6.modified], with the seed and window of the script. *)
Theorem run_checkpoints_round_trip argv (fs fs' : files) :
  files_are_bytes fs ->
  main argv fs = Ok fs' ->
  exists gma6 decrypted modified encrypted,
    fs !! "gma6"%string = Some gma6
    /\ fs' !! "gma6.decrypted"%string = Some decrypted
    /\ fs' !! "gma6.modified"%string = Some modified
    /\ fs' !! "gma6.encrypted"%string = Some encrypted
    /\ decrypt load_address seed scramble_from scramble_to gma6
       = Ok decrypted
    /\ encrypt load_address seed scramble_from scramble_to decrypted
       = Ok gma6
    /\ encrypt load_address seed scramble_from scramble_to modified
       = Ok encrypted
    /\ decrypt load_address seed scramble_from scramble_to encrypted
       = Ok modified.
Proof.
  intros Hbytes Hrun.
  destruct (run_checkpoints argv fs fs' Hbytes Hrun)
    as (gma6 & d1 & d3 & d4 & gma1 & patched
        & Hgma6 & [Hok6 Hlen6] & Hd1 & [Hok3 Hlen3] & Hd4 & _ & _ & _ & ->).
  exists gma6, d1, d3, d4.
  split; [done |].
  split; [by rewrite !lookup_insert_ne, lookup_insert_eq by done |].
  split; [by rewrite !lookup_insert_ne, lookup_insert_eq by done |].
  split; [by rewrite !lookup_insert_ne, lookup_insert_eq by done |].
  split; [done |].
  pose proof (decrypt_then_encrypt load_address seed scramble_from
                scramble_to gma6 Hok6
                (script_window_in_image_ge gma6 Hlen6)) as Hback6.
  rewrite Hd1 in Hback6. cbn [bind] in Hback6.
  split; [done |]. split; [done |].
  pose proof (encrypt_then_decrypt load_address seed scramble_from
                scramble_to d3 Hok3
                (script_window_in_image_ge d3 Hlen3)) as Hback3.
  rewrite Hd4 in Hback3. by cbn [bind] in Hback3.
Qed.

Lemma run_checkpoints_round_trip_example :
  files_are_bytes example_directory
  /\ exists fs' modified encrypted,
       main ["elite-modify.py"%string] example_directory = Ok fs'
       /\ fs' !! "gma6.modified"%string = Some modified
       /\ fs' !! "gma6.encrypted"%string = Some encrypted
       /\ decrypt load_address seed scramble_from scramble_to encrypted
          = Ok modified.
Proof.
  pose proof example_directory_bytes as Hbytes.
  split; [exact Hbytes |].
  destruct (main_runs ["elite-modify.py"%string] example_directory
              example_directory_ready) as (fs' & Hrun).
  destruct (run_checkpoints_round_trip _ _ _ Hbytes Hrun)
    as (gma6 & decrypted & modified & encrypted
        & _ & _ & Hmod & Henc & _ & _ & _ & Hback).
  exists fs', modified, encrypted.
  split; [exact Hrun |]. split; [exact Hmod |]. split; [exact Henc |].
  exact Hback.
Defined.

(** X14: the encrypt pass of the run leaves everything outside the scramble
    window in clear: [gma6.encrypted] has the length of [gma6.modified] and
    the same bytes at the two header offsets and at every offset past
    0x62D6 + 2, where the script appends [extra.bin]. *)
Theorem run_encrypts_the_window_only argv (fs fs' : files) :
  files_are_bytes fs ->
  main argv fs = Ok fs' ->
  exists modified encrypted,
    fs' !! "gma6.modified"%string = Some modified
    /\ fs' !! "gma6.encrypted"%string = Some encrypted
    /\ len encrypted = len modified
    /\ (forall i, 0 <= i -> i < 2 \/ 0x62D6 + 2 < i ->
          byte_at encrypted i = byte_at modified i).
Proof.
  intros Hbytes Hrun.
  destruct (run_checkpoints argv fs fs' Hbytes Hrun)
    as (gma6 & d1 & d3 & d4 & gma1 & patched
        & _ & _ & _ & [Hok3 Hlen3] & Hd4 & _ & _ & _ & ->).
  exists d3, d4.
  split; [by rewrite !lookup_insert_ne, lookup_insert_eq by done |].
  split; [by rewrite !lookup_insert_ne, lookup_insert_eq by done |].
  destruct (encrypt_pass load_address seed scramble_from scramble_to d3 Hok3
              (script_window_in_image_ge d3 Hlen3))
    as (d4' & Hd4' & Hlen & _ & Hout & _).
  rewrite Hd4 in Hd4'. injection Hd4' as <-.
  split; [exact Hlen |].
  intros i Hi Hrange. apply Hout; [done |].
  unfold scramble_from, scramble_to, load_address. lia.
Qed.

Lemma run_encrypts_the_window_only_example :
  files_are_bytes example_directory
  /\ exists fs' modified encrypted,
       main ["elite-modify.py"%string] example_directory = Ok fs'
       /\ fs' !! "gma6.modified"%string = Some modified
       /\ fs' !! "gma6.encrypted"%string = Some encrypted
       /\ byte_at encrypted 0 = byte_at modified 0
       /\ byte_at encrypted 1 = byte_at modified 1
       /\ byte_at encrypted (0x62D6 + 3) = byte_at modified (0x62D6 + 3).
Proof.
  pose proof example_directory_bytes as Hbytes.
  split; [exact Hbytes |].
  destruct (main_runs ["elite-modify.py"%string] example_directory
              example_directory_ready) as (fs' & Hrun).
  destruct (run_encrypts_the_window_only _ _ _ Hbytes Hrun)
    as (modified & encrypted & Hmod & Henc & _ & Hout).
  exists fs', modified, encrypted.
  split; [exact Hrun |]. split; [exact Hmod |]. split; [exact Henc |].
  split; [apply Hout; lia |]. split; apply Hout; lia.
Defined.

(** X15: a run that ends well writes its four output files and nothing
    else: every other file of the working directory, the inputs included,
    is as it was. *)
Theorem run_writes_its_outputs_only argv (fs fs' : files) :
  main argv fs = Ok fs' ->
  (forall name, name ∈ output_files -> is_Some (fs' !! name))
  /\ (forall name, name ∉ output_files -> fs' !! name = fs !! name).
Proof.
  intros Hrun.
  destruct (main_inv argv fs fs' Hrun)
    as (gma6 & d1 & d2 & d3 & d4 & gma1 & patched
        & _ & _ & _ & _ & _ & _ & _ & ->).
  split.
  - intros name Hname. unfold output_files in Hname.
    apply list_elem_of_In in Hname. simpl in Hname.
    destruct Hname as [<- | [<- | [<- | [<- | []]]]];
      rewrite ?lookup_insert_ne by done; rewrite lookup_insert_eq;
      by eexists.
  - intros name Hname. unfold output_files in Hname.
    rewrite !lookup_insert_ne; [done | | | |];
      intros <-; apply Hname, list_elem_of_In; simpl; tauto.
Qed.

Lemma run_writes_its_outputs_only_example :
  exists fs',
    main ["elite-modify.py"%string] example_directory = Ok fs'
    /\ fs' !! "gma6"%string = example_directory !! "gma6"%string
    /\ fs' !! "gma1"%string = example_directory !! "gma1"%string
    /\ is_Some (fs' !! "gma1.modified"%string).
Proof.
  destruct (main_runs ["elite-modify.py"%string] example_directory
              example_directory_ready) as (fs' & Hrun).
  destruct (run_writes_its_outputs_only _ _ _ Hrun) as (Hout & Hkeep).
  exists fs'. split; [exact Hrun |]. clear Hrun.
  assert (Hnot : forall name,
            ~ In name ["gma6.decrypted"; "gma6.modified"; "gma6.encrypted";
                       "gma1.modified"]%string ->
            name ∉ output_files).
  { intros name Hname Hin. apply Hname. by apply list_elem_of_In. }
  split; [| split].
  - apply Hkeep, Hnot. simpl. intuition discriminate.
  - apply Hkeep, Hnot. simpl. intuition discriminate.
  - apply Hout. unfold output_files. apply list_elem_of_In. simpl. tauto.
Defined.

(** * What the run reads *)

Section RunReads.

Implicit Types (fs : files) (data : list Z).

Lemma modify_flicker_free_agree fs fs' data :
  (forall name, name ∈ patch_files -> fs !! name = fs' !! name) ->
  modify_flicker_free fs data = modify_flicker_free fs' data.
Proof.
  intros Hagree.
  assert (H1 : fs !! "shppt.bin"%string = fs' !! "shppt.bin"%string).
  { apply Hagree, list_elem_of_In. simpl. tauto. }
  assert (H2 : fs !! "ll78.bin"%string = fs' !! "ll78.bin"%string).
  { apply Hagree, list_elem_of_In. simpl. tauto. }
  assert (H3 : fs !! "ll155.bin"%string = fs' !! "ll155.bin"%string).
  { apply Hagree, list_elem_of_In. simpl. tauto. }
  assert (H4 : fs !! "extra.bin"%string = fs' !! "extra.bin"%string).
  { apply Hagree, list_elem_of_In. simpl. tauto. }
  unfold modify_flicker_free, insert_binary_file, read_file. cbv zeta.
  by rewrite H1, H2, H3, H4.
Qed.

Lemma modify_editor_agree fs fs' data :
  (forall name, name ∈ patch_files -> fs !! name = fs' !! name) ->
  modify_editor fs data = modify_editor fs' data.
Proof.
  intros Hagree.
  assert (H5 : fs !! "editor.bin"%string = fs' !! "editor.bin"%string).
  { apply Hagree, list_elem_of_In. simpl. tauto. }
  unfold modify_editor, insert_binary_file, read_file. cbv zeta.
  by rewrite H5.
Qed.

Lemma written_agrees_on_patch_files fs name data :
  name ∈ output_files ->
  forall f, f ∈ patch_files -> write_file fs name data !! f = fs !! f.
Proof.
  intros Hname f Hf. unfold write_file. apply lookup_insert_ne.
  intros ->. by apply (not_a_patch_file f).
Qed.

(** The run with every read taken from the directory it started in: the
    files it writes on its way are none of the files it reads. *)
Lemma main_reads_the_start argv fs :
  main argv fs
  = (do gma6 <- read_file fs "gma6" ;;
     do d1 <- decrypt load_address seed scramble_from scramble_to gma6 ;;
     do d2 <- modify_flicker_free fs d1 ;;
     do d3 <- modify_editor fs d2 ;;
     do d4 <- encrypt load_address seed scramble_from scramble_to d3 ;;
     do gma1 <- read_file fs "gma1" ;;
     do patched <- patch_gma1 (platform_of_argv argv) gma1 ;;
     Ok (<["gma1.modified"%string := patched]>
           (<["gma6.encrypted"%string := d4]>
              (<["gma6.modified"%string := d3]>
                 (<["gma6.decrypted"%string := d1]> fs))))).
Proof.
  unfold main.
  destruct (read_file fs "gma6") as [gma6 |]; [| done]. cbn [bind].
  change (extend [] gma6) with gma6.
  destruct (decrypt _ _ _ _ gma6) as [d1 |]; [| done]. cbn [bind].
  assert (Hout : "gma6.decrypted"%string ∈ output_files).
  { apply list_elem_of_In. simpl. tauto. }
  rewrite (modify_flicker_free_agree _ fs d1
             (written_agrees_on_patch_files fs _ d1 Hout)).
  destruct (modify_flicker_free fs d1) as [d2 |]; [| done]. cbn [bind].
  rewrite (modify_editor_agree _ fs d2
             (written_agrees_on_patch_files fs _ d1 Hout)).
  destruct (modify_editor fs d2) as [d3 |]; [| done]. cbn [bind].
  destruct (encrypt _ _ _ _ d3) as [d4 |]; [| done]. cbn [bind].
  unfold read_file, write_file. rewrite !lookup_insert_ne by done.
  destruct (fs !! "gma1"%string) as [gma1 |]; [| done]. cbn [bind].
  change (extend [] gma1) with gma1. done.
Qed.

Lemma inputs_agree_patch_files fs1 fs2 :
  (forall name, name ∈ input_files -> fs1 !! name = fs2 !! name) ->
  forall name, name ∈ patch_files -> fs1 !! name = fs2 !! name.
Proof.
  intros Hagree name Hname. apply Hagree.
  unfold patch_files in Hname. unfold input_files.
  apply list_elem_of_In in Hname. apply list_elem_of_In.
  simpl in *. tauto.
Qed.

End RunReads.

(** X16: the run reads its seven input files and nothing else: in two
    working directories that agree on them it raises the same exception, or
    ends well in both with the same four output files. *)
Theorem run_reads_its_inputs_only argv (fs1 fs2 : files) :
  (forall name, name ∈ input_files -> fs1 !! name = fs2 !! name) ->
  (forall e, main argv fs1 = Raise e -> main argv fs2 = Raise e)
  /\ (forall fs1',
        main argv fs1 = Ok fs1' ->
        exists fs2',
          main argv fs2 = Ok fs2'
          /\ forall name, name ∈ output_files ->
               fs2' !! name = fs1' !! name).
Proof.
  intros Hagree.
  assert (Hgma6 : fs1 !! "gma6"%string = fs2 !! "gma6"%string).
  { apply Hagree, list_elem_of_In. simpl. tauto. }
  assert (Hgma1 : fs1 !! "gma1"%string = fs2 !! "gma1"%string).
  { apply Hagree, list_elem_of_In. simpl. tauto. }
  pose proof (inputs_agree_patch_files fs1 fs2 Hagree) as Hpatch.
  rewrite (main_reads_the_start argv fs1), (main_reads_the_start argv fs2).
  unfold read_file. rewrite <- Hgma6, <- Hgma1.
  destruct (fs1 !! "gma6"%string) as [gma6 |]; [| done]. cbn [bind].
  destruct (decrypt _ _ _ _ gma6) as [d1 |]; [| done]. cbn [bind].
  rewrite <- (modify_flicker_free_agree fs1 fs2 d1 Hpatch).
  destruct (modify_flicker_free fs1 d1) as [d2 |]; [| done]. cbn [bind].
  rewrite <- (modify_editor_agree fs1 fs2 d2 Hpatch).
  destruct (modify_editor fs1 d2) as [d3 |]; [| done]. cbn [bind].
  destruct (encrypt _ _ _ _ d3) as [d4 |]; [| done]. cbn [bind].
  destruct (fs1 !! "gma1"%string) as [gma1 |]; [| done]. cbn [bind].
  destruct (patch_gma1 _ gma1) as [patched |]; [| done]. cbn [bind].
  split; [done |].
  intros fs1' [= <-]. eexists. split; [reflexivity |].
  intros name Hname. unfold output_files in Hname.
  apply list_elem_of_In in Hname. simpl in Hname.
  destruct Hname as [<- | [<- | [<- | [<- | []]]]];
    rewrite !lookup_insert; repeat case_decide; done.
Qed.

Lemma run_reads_its_inputs_only_example :
  (forall name, name ∈ input_files ->
     example_directory !! name
     = <["gma6.decrypted"%string := [1; 2; 3]]> example_directory !! name)
  /\ exists fs1' fs2',
       main ["elite-modify.py"%string] example_directory = Ok fs1'
       /\ main ["elite-modify.py"%string]
            (<["gma6.decrypted"%string := [1; 2; 3]]> example_directory)
          = Ok fs2'
       /\ fs2' !! "gma6.encrypted"%string = fs1' !! "gma6.encrypted"%string.
Proof.
  assert (Hagree : forall name, name ∈ input_files ->
                     example_directory !! name
                     = <["gma6.decrypted"%string := [1; 2; 3]]>
                         example_directory !! name).
  { intros name Hname. symmetry. apply lookup_insert_ne. intros <-.
    apply list_elem_of_In in Hname. simpl in Hname.
    intuition discriminate. }
  split; [exact Hagree |].
  destruct (main_runs ["elite-modify.py"%string] example_directory
              example_directory_ready) as (fs1' & Hrun).
  destruct (run_reads_its_inputs_only ["elite-modify.py"%string]
              example_directory _ Hagree) as (_ & Hsame).
  destruct (Hsame fs1' Hrun) as (fs2' & Hrun2 & Hout).
  exists fs1', fs2'.
  split; [exact Hrun |]. split; [exact Hrun2 |].
  apply Hout. apply list_elem_of_In. simpl. tauto.
Defined.

(** X17: running the script again in the directory a run has left gives
    that directory again: the outputs of the first run are not read, and
    the second run writes the same four files. *)
Theorem run_again_changes_nothing argv (fs fs' : files) :
  main argv fs = Ok fs' -> main argv fs' = Ok fs'.
Proof.
  intros Hrun.
  rewrite (main_reads_the_start argv fs) in Hrun.
  rewrite (main_reads_the_start argv fs').
  apply bind_ok_inv in Hrun as (gma6 & Hgma6 & Hrun).
  apply bind_ok_inv in Hrun as (d1 & Hd1 & Hrun).
  apply bind_ok_inv in Hrun as (d2 & Hd2 & Hrun).
  apply bind_ok_inv in Hrun as (d3 & Hd3 & Hrun).
  apply bind_ok_inv in Hrun as (d4 & Hd4 & Hrun).
  apply bind_ok_inv in Hrun as (gma1 & Hgma1 & Hrun).
  apply bind_ok_inv in Hrun as (patched & Hpatch & Hrun).
  injection Hrun as <-.
  set (fs' := <["gma1.modified"%string := patched]>
                (<["gma6.encrypted"%string := d4]>
                   (<["gma6.modified"%string := d3]>
                      (<["gma6.decrypted"%string := d1]> fs)))).
  assert (Hkeep : forall name, name ∉ output_files ->
                    fs' !! name = fs !! name).
  { intros name Hname. unfold fs'.
    rewrite !lookup_insert_ne; [done | | | |];
      intros <-; apply Hname, list_elem_of_In; simpl; tauto. }
  assert (Hpatch_files : forall name, name ∈ patch_files ->
                           fs' !! name = fs !! name).
  { intros name Hname. apply Hkeep. intros Hout.
    by apply (not_a_patch_file name). }
  unfold read_file in *.
  rewrite (Hkeep "gma6"%string), (Hkeep "gma1"%string);
    try (intros Hin; apply list_elem_of_In in Hin; simpl in Hin;
         intuition discriminate).
  destruct (fs !! "gma6"%string) as [c6 |]; [| done].
  injection Hgma6 as ->. cbn [bind]. rewrite Hd1. cbn [bind].
  rewrite (modify_flicker_free_agree fs' fs d1 Hpatch_files), Hd2.
  cbn [bind].
  rewrite (modify_editor_agree fs' fs d2 Hpatch_files), Hd3. cbn [bind].
  rewrite Hd4. cbn [bind].
  destruct (fs !! "gma1"%string) as [c1 |]; [| done].
  injection Hgma1 as ->. cbn [bind]. rewrite Hpatch. cbn [bind].
  f_equal. apply map_eq. intros name. unfold fs'.
  rewrite !lookup_insert. repeat case_decide; done.
Qed.

Lemma run_again_changes_nothing_example :
  exists fs',
    main ["elite-modify.py"%string] example_directory = Ok fs'
    /\ main ["elite-modify.py"%string] fs' = Ok fs'.
Proof.
  destruct (main_runs ["elite-modify.py"%string] example_directory
              example_directory_ready) as (fs' & Hrun).
  exists fs'. split; [exact Hrun |].
  exact (run_again_changes_nothing _ _ _ Hrun).
Defined.
